(** * tc-message-service: topic lookup, entitlement check and provisioning

    A shallow embedding of [app/routes/topics/list.js] (the request handler
    that binds a Discourse topic to a platform entity) and of the two
    revisions of [app/services/discourse.js] that accompany it, followed by
    the properties of the handler that the specification states.

    JavaScript values are embedded as a small value type, promises as a
    state-and-outcome monad over a world holding the mapping table and the
    log of every call that left the process, and the remote parties
    (database, authorization endpoint, member service, forum) as oracles
    that answer from the history of calls so far. *)

From stdpp Require Import base option numbers strings pretty list gmap fin_maps.
From Stdlib Require Import Ascii ZArith Lia.

Set Warnings "-register-all".

Local Open Scope Z_scope.

(** ** JavaScript values *)

Module Js.

(** Values that travel through the handler: parsed JSON bodies, header
    values, identifiers.  Numbers are the integers (status codes and
    identifiers); fractions and NaN are outside this model. *)
Inductive jsval : Type :=
| JUndefined
| JNull
| JBool (b : bool)
| JNum (n : Z)
| JStr (s : string)
| JArr (elems : list jsval)
| JObj (props : list (string * jsval)).

(** ToBoolean. *)
Definition truthy (v : jsval) : bool :=
  match v with
  | JUndefined | JNull => false
  | JBool b => b
  | JNum n => negb (Z.eqb n 0)
  | JStr s => negb (String.eqb s EmptyString)
  | JArr _ | JObj _ => true
  end.

(** Own property of a parsed object, [undefined] when absent. *)
Fixpoint own_prop (k : string) (props : list (string * jsval)) : jsval :=
  match props with
  | [] => JUndefined
  | (k', v) :: rest => if String.eqb k k' then v else own_prop k rest
  end.

(** [v.k] for the property names read by the handler ([data], [result],
    [status], [content], [success], [topic_id], [firstName], ...): none of
    them exists on the String, Number, Boolean or Array prototypes, so a
    primitive or an array yields [undefined]; reading a property of
    [undefined] or [null] throws a TypeError, which is [None] here. *)
Definition get (v : jsval) (k : string) : option jsval :=
  match v with
  | JUndefined | JNull => None
  | JObj props => Some (own_prop k props)
  | JBool _ | JNum _ | JStr _ | JArr _ => Some JUndefined
  end.

(** The operations of the language whose full definition lies in the
    ECMAScript runtime rather than in this repository. *)
Record Builtins : Type := {
  (** [String.prototype.replace(pattern, replacement)], string pattern. *)
  String_replace : string -> string -> string -> string;
  (** [ToString], [None] when the conversion throws. *)
  ToString : jsval -> option string;
  (** [a + b], [None] when a conversion throws. *)
  plus : jsval -> jsval -> option jsval;
  (** [v == n] for a string, array or object [v] against a number: the
      ToPrimitive / ToNumber coercions; [None] when a conversion throws. *)
  coerced_eq : jsval -> Z -> option bool
}.

(** [v == n] with [n] a number literal. *)
Definition loose_eq_number (js : Builtins) (v : jsval) (n : Z) : option bool :=
  match v with
  | JNum m => Some (Z.eqb m n)
  | JUndefined | JNull => Some false
  | JBool b => Some (Z.eqb (if b then 1 else 0) n)
  | JStr _ | JArr _ | JObj _ => coerced_eq js v n
  end.

(** [s.split(sep)] for a one-character separator: always at least one
    part, one more part than there are separators. *)
Fixpoint split (sep : Ascii.ascii) (s : string) : list string :=
  match s with
  | EmptyString => [EmptyString]
  | String c rest =>
      if Ascii.eqb c sep then EmptyString :: split sep rest
      else match split sep rest with
           | part :: parts => String c part :: parts
           | [] => [String c EmptyString]
           end
  end.

(** [o[k] = v] on an object created by the literal [{}] with a string
    [v]: every key becomes an own property except ["__proto__"], whose
    inherited setter ignores a value that is neither an object nor
    null. *)
Definition set_prop (o : gmap string string) (k v : string) : gmap string string :=
  if String.eqb k "__proto__" then o else <[k := v]> o.

(** [!o.k] for such an object: the property is absent or the empty
    string. *)
Definition falsy_prop (o : gmap string string) (k : string) : bool :=
  match o !! k with
  | None => true
  | Some s => String.eqb s EmptyString
  end.

(** [o.k] inside a string concatenation: [undefined] prints as such. *)
Definition prop_text (o : gmap string string) (k : string) : string :=
  default "undefined" (o !! k).

(** [encodeURIComponent].  A string here is the UTF-8 byte sequence of
    the text (a lone surrogate, on which the function throws, cannot be
    written in it): the unreserved characters [A-Z a-z 0-9 - _ . ! ~ * ' ( )]
    stay, every other byte becomes ['%'] and two upper-case hexadecimal
    digits. *)
Definition unreserved (c : Ascii.ascii) : bool :=
  let n := Ascii.nat_of_ascii c in
  ((48 <=? n) && (n <=? 57) || (65 <=? n) && (n <=? 90) || (97 <=? n) && (n <=? 122)
   || bool_decide (n ∈ [45; 95; 46; 33; 126; 42; 39; 40; 41]))%nat.

Definition hex_digit (d : nat) : Ascii.ascii :=
  Ascii.ascii_of_nat (if (d <? 10)%nat then 48 + d else 55 + d)%nat.

Definition percent_encoded (c : Ascii.ascii) : string :=
  let n := Ascii.nat_of_ascii c in
  String "%"%char (String (hex_digit (n / 16)) (String (hex_digit (n mod 16)) EmptyString)).

Fixpoint encodeURIComponent (s : string) : string :=
  match s with
  | EmptyString => EmptyString
  | String c rest =>
      if unreserved c then String c (encodeURIComponent rest)
      else percent_encoded c +:+ encodeURIComponent rest
  end.

(** [parts.join(sep)] on an array of strings. *)
Fixpoint join (sep : string) (parts : list string) : string :=
  match parts with
  | [] => EmptyString
  | [part] => part
  | part :: rest => part +:+ sep +:+ join sep rest
  end.

(** Whether the character occurs in the string. *)
Fixpoint occurs (c : Ascii.ascii) (s : string) : bool :=
  match s with
  | EmptyString => false
  | String c' rest => Ascii.eqb c' c || occurs c rest
  end.

End Js.

Export Js.

(** ** The HTTP client (axios) *)

Module Axios.

(** What the network gives back for one request: a reply with its status
    line and parsed body, a transport failure, or nothing at all. *)
Inductive http_reply : Type :=
| Reply (status : Z) (body : jsval)
| TransportError
| Silent.

(** The [response] object handed to [.then]. *)
Record response : Type := { status : Z; data : jsval }.

(** The error handed to [.catch]: [error.response] is defined only when the
    server answered with a status that was rejected. *)
Inductive axios_error : Type :=
| HttpError (r : response)
| NetworkError
| TimeoutError.

(** The part of the request configuration that list.js sets. *)
Record config : Type := {
  headers : list (string * jsval);
  timeout : option Z
}.

(** The default [validateStatus] of axios; neither list.js nor the forum
    client overrides it. *)
Definition validateStatus (status : Z) : bool :=
  (200 <=? status) && (status <? 300).

(** How a promise ends: fulfilled, rejected, or never settled. *)
Inductive settled (E A : Type) : Type :=
| Resolved (a : A)
| Rejected (e : E)
| Pending.

Arguments Resolved {E A} a.
Arguments Rejected {E A} e.
Arguments Pending {E A}.

(** How axios settles the promise of a request.  Without a [timeout] a
    request that is never answered never settles. *)
Definition settle (cfg_timeout : option Z) (r : http_reply) : settled axios_error response :=
  match r with
  | Reply s b =>
      if validateStatus s then Resolved {| status := s; data := b |}
      else Rejected (HttpError {| status := s; data := b |})
  | TransportError => Rejected NetworkError
  | Silent =>
      match cfg_timeout with
      | Some _ => Rejected TimeoutError
      | None => Pending
      end
  end.

End Axios.

Export Axios.

(** ** Configuration *)

(** The keys read through [config] by list.js and by the forum client. *)
Record Config : Type := {
  memberServiceUrl : string;
  defaultDiscoursePw : string;
  discourseURL : string;
  discourseApiKey : string;
  discourseSystemUsername : string
}.

(** ** The forum client, as list.js calls it *)

(** The five methods of [discourseClient] that list.js invokes, with the
    arguments in the positions list.js passes them. *)
Inductive discourse_call : Type :=
| GetUser (username : string)
| CreateUser (name username email : jsval) (password : string)
| CreatePrivatePost (title post users : string)
| GetTopic (topicId : jsval) (username : string)
| GrantAccess (userName : string) (topicId : jsval).

(** A request as the forum client hands it to axios: the per-request
    [params] are merged over [client.defaults.params]. *)
Inductive http_method : Type := GET | POST | PUT.

Record forum_request : Type := {
  method : http_method;
  url : string;
  body : jsval;
  params : list (string * string)
}.

Fixpoint lookup_param (k : string) (ps : list (string * string)) : option string :=
  match ps with
  | [] => None
  | (k', v) :: rest => if String.eqb k k' then Some v else lookup_param k rest
  end.

(** [client.defaults.params]. *)
Definition default_params (cfg : Config) : list (string * string) :=
  [("api_key", discourseApiKey cfg); ("api_username", discourseSystemUsername cfg)].

(** The value of the query parameter [k] after the merge. *)
Definition merged_param (cfg : Config) (r : forum_request) (k : string) : option string :=
  match lookup_param k (params r) with
  | Some v => Some v
  | None => lookup_param k (default_params cfg)
  end.

(** The query a method writes into the URL itself.  axios leaves it as it
    stands and appends the merged [params] after it, so a key that the URL
    and the params both name goes out twice. *)
Fixpoint text_after (c : Ascii.ascii) (s : string) : option string :=
  match s with
  | EmptyString => None
  | String x rest => if Ascii.eqb x c then Some rest else text_after c rest
  end.

Fixpoint text_before (c : Ascii.ascii) (s : string) : string :=
  match s with
  | EmptyString => EmptyString
  | String x rest => if Ascii.eqb x c then EmptyString else String x (text_before c rest)
  end.

(** A segment [key=value] of a query; a segment without ['='] is a key
    with an empty value. *)
Definition query_pair (segment : string) : string * string :=
  (text_before "=" segment, default EmptyString (text_after "=" segment)).

Definition url_query (u : string) : list (string * string) :=
  match text_after "?" u with
  | Some query => map query_pair (Js.split "&" query)
  | None => []
  end.

Definition values_of (k : string) (pairs : list (string * string)) : list string :=
  map snd (List.filter (fun kv => String.eqb (fst kv) k) pairs).

(** Every [api_username] the request carries to the forum, in the order of
    the query string: those of the URL, then the one of the merged
    params. *)
Definition api_usernames (cfg : Config) (r : forum_request) : list string :=
  values_of "api_username" (url_query (url r))
  ++ option_list (merged_param cfg r "api_username").

(** An optional string argument is truthy when it is given and not
    empty. *)
Definition given (o : option string) : bool :=
  match o with
  | Some s => negb (String.eqb s EmptyString)
  | None => false
  end.

(** *** services/discourse.js, the revision that takes the logger *)

Module Discourse.
Section Client.

Variable js : Builtins.
Variable cfg : Config.

(** [util.isDiscourseAdmin], from a module outside these sources. *)
Variable isDiscourseAdmin : string -> bool.

Definition DISCOURSE_SYSTEM_USERNAME : string := discourseSystemUsername cfg.

Definition getUser (username : string) : forum_request :=
  {| method := GET;
     url := "/users/" +:+ username +:+ ".json?api_username=" +:+ username;
     body := JUndefined;
     params := [] |}.

Definition createUser (name userId handle email password photoUrl : jsval) : forum_request :=
  {| method := POST;
     url := "/users";
     body := JObj [("name", name); ("username", userId); ("email", email);
                   ("password", password); ("active", JBool true);
                   ("user_fields", JObj [("1", handle)])];
     params := [] |}.

Definition createPrivatePost (title post users : string) (owner : option string) : forum_request :=
  {| method := POST;
     url := "/posts";
     body := JObj [("archetype", JStr "private_message"); ("target_usernames", JStr users);
                   ("title", JStr title); ("raw", JStr post)];
     params := [("api_username",
                 if given owner && negb (isDiscourseAdmin (default EmptyString owner))
                 then default EmptyString owner else DISCOURSE_SYSTEM_USERNAME)] |}.

Definition getTopic (topicId : jsval) (username : string) : option forum_request :=
  id ← ToString js topicId;
  Some {| method := GET;
          url := "/t/" +:+ id +:+ ".json";
          body := JUndefined;
          params := [("api_username",
                      if isDiscourseAdmin username then DISCOURSE_SYSTEM_USERNAME else username)] |}.

Definition grantAccess (userName : string) (topicId : jsval) : option forum_request :=
  id ← ToString js topicId;
  Some {| method := POST;
          url := "/t/" +:+ id +:+ "/invite";
          body := JObj [("user", JStr userName)];
          params := [] |}.


(** The acting user of the methods that substitute the system user for a
    forum administrator. *)
Definition acting (username : string) : string :=
  if isDiscourseAdmin username then DISCOURSE_SYSTEM_USERNAME else username.

Definition createPost (username post : string) (discourseTopicId responseTo : jsval)
  : option forum_request :=
  id ← ToString js discourseTopicId;
  let data := "topic_id=" +:+ id +:+ "&raw=" +:+ encodeURIComponent post in
  data ← (if truthy responseTo
          then (reply ← ToString js responseTo;
                Some (data +:+ "&reply_to_post_number=" +:+ reply))
          else Some data);
  Some {| method := POST;
          url := "/posts";
          body := JStr data;
          params := [("api_username", acting username)] |}.

(** The loop of [getPosts]: one [post_ids[]] pair per identifier, the
    separator empty before the first. *)
Fixpoint postIdsFilter (separator : string) (postIds : list jsval) : option string :=
  match postIds with
  | [] => Some EmptyString
  | postId :: rest =>
      id ← ToString js postId;
      more ← postIdsFilter "&" rest;
      Some (separator +:+ encodeURIComponent "post_ids[]" +:+ "=" +:+ id +:+ more)
  end.

Definition getPosts (username : string) (topicId : jsval) (postIds : list jsval)
  : option forum_request :=
  filter ← postIdsFilter EmptyString postIds;
  id ← ToString js topicId;
  Some {| method := GET;
          url := "/t/" +:+ id +:+ "/posts.json?" +:+ filter;
          body := JUndefined;
          params := [("api_username", acting username)] |}.

(** The element [markTopicPostsRead] pushes for a post. *)
Definition timing (postId : jsval) : option string :=
  id ← ToString js postId;
  Some (encodeURIComponent ("timings[" +:+ id +:+ "]") +:+ "=1000").

Definition markTopicPostsRead (username : string) (topicId : jsval) (postIds : list jsval)
  : option forum_request :=
  id ← ToString js topicId;
  timings ← mapM timing postIds;
  Some {| method := POST;
          url := "/topics/timings.json";
          body := JStr (join "&" (["topic_id=" +:+ id; "topic_time=" +:+ id] ++ timings));
          params := [("api_username", username)] |}.

(** The request behind each call of list.js; [None] when the method throws
    before it reaches axios.  list.js passes four arguments to [createUser]
    and three to [createPrivatePost]: the remaining parameters are
    [undefined]. *)
Definition request_of (c : discourse_call) : option forum_request :=
  match c with
  | GetUser username => Some (getUser username)
  | CreateUser name username email password =>
      Some (createUser name username email (JStr password) JUndefined JUndefined)
  | CreatePrivatePost title post users => Some (createPrivatePost title post users None)
  | GetTopic topicId username => getTopic topicId username
  | GrantAccess userName topicId => grantAccess userName topicId
  end.

End Client.
End Discourse.

(** *** services/discourse.js, the earlier revision *)

Module DiscourseEarly.
Section Client.

Variable js : Builtins.
Variable cfg : Config.

Definition DISCOURSE_SYSTEM_USERNAME : string := discourseSystemUsername cfg.

Definition getUser (username : string) : forum_request :=
  {| method := GET;
     url := "/users/" +:+ username +:+ ".json?api_username=" +:+ username;
     body := JUndefined;
     params := [] |}.

(** The first parameter is the logger; [logger.debug(...)] is the first
    statement, and it throws when the argument is any plain value. *)
Inductive logger_arg : Type := Logger | Plain (v : jsval).

Definition createUser (logger : logger_arg) (name username email password : jsval)
  : option forum_request :=
  match logger with
  | Logger =>
      Some {| method := POST;
              url := "/users";
              body := JObj [("name", name); ("username", username); ("email", email);
                            ("password", password); ("active", JBool true)];
              params := [] |}
  | Plain _ => None
  end.

Definition createPrivatePost (title post users : string) (owner : option string) : forum_request :=
  {| method := POST;
     url := "/posts";
     body := JObj [];
     params := [("archetype", "private_message"); ("target_usernames", users);
                ("api_username", if given owner then default EmptyString owner
                                 else DISCOURSE_SYSTEM_USERNAME);
                ("title", title); ("raw", post)] |}.

Definition getTopic (topicId : jsval) (username : string) : option forum_request :=
  id ← ToString js topicId;
  Some {| method := GET;
          url := "/t/" +:+ id +:+ ".json?api_username=" +:+ username;
          body := JUndefined;
          params := [] |}.

Definition grantAccess (userName : string) (topicId : jsval) : option forum_request :=
  id ← ToString js topicId;
  Some {| method := POST;
          url := "/t/" +:+ id +:+ "/invite";
          body := JObj [("user", JStr userName)];
          params := [] |}.

Definition createPost (username post : string) (discourseTopicId responseTo : jsval)
  : option forum_request :=
  id ← ToString js discourseTopicId;
  let data := "topic_id=" +:+ id +:+ "&raw=" +:+ encodeURIComponent post in
  data ← (if truthy responseTo
          then (reply ← ToString js responseTo;
                Some (data +:+ "&reply_to_post_number=" +:+ reply))
          else Some data);
  Some {| method := POST;
          url := "/posts?api_username=" +:+ username;
          body := JStr data;
          params := [] |}.

Fixpoint postIdsFilter (separator : string) (postIds : list jsval) : option string :=
  match postIds with
  | [] => Some EmptyString
  | postId :: rest =>
      id ← ToString js postId;
      more ← postIdsFilter "&" rest;
      Some (separator +:+ encodeURIComponent "post_ids[]" +:+ "=" +:+ id +:+ more)
  end.

Definition getPosts (username : string) (topicId : jsval) (postIds : list jsval)
  : option forum_request :=
  filter ← postIdsFilter EmptyString postIds;
  id ← ToString js topicId;
  Some {| method := GET;
          url := "/t/" +:+ id +:+ "/posts.json?" +:+ filter;
          body := JUndefined;
          params := [] |}.

Definition timing (postId : jsval) : option string :=
  id ← ToString js postId;
  Some (encodeURIComponent ("timings[" +:+ id +:+ "]") +:+ "=1000").

Definition markTopicPostsRead (username : string) (topicId : jsval) (postIds : list jsval)
  : option forum_request :=
  id ← ToString js topicId;
  timings ← mapM timing postIds;
  Some {| method := POST;
          url := "/topics/timings.json?api_username=" +:+ username;
          body := JStr (join "&" (["topic_id=" +:+ id; "topic_time=" +:+ id] ++ timings));
          params := [] |}.

Definition request_of (c : discourse_call) : option forum_request :=
  match c with
  | GetUser username => Some (getUser username)
  | CreateUser name username email password =>
      createUser (Plain name) username email (JStr password) JUndefined
  | CreatePrivatePost title post users => Some (createPrivatePost title post users None)
  | GetTopic topicId username => getTopic topicId username
  | GrantAccess userName topicId => grantAccess userName topicId
  end.

End Client.
End DiscourseEarly.

(** ** Tables, the outside world and promises *)

(** A row of [db.topics], with the attributes list.js gives to [build]. *)
Record topic : Type := {
  reference : string;
  referenceId : string;
  discourseTopicId : jsval;
  createdAt : Z;
  createdBy : string;
  updatedAt : Z;
  updatedBy : string
}.

(** A row of [db.referenceLookups]. *)
Record referenceLookup : Type := {
  lookup_reference : string;
  endpoint : string
}.

(** What a promise of list.js is rejected with. *)
Inductive rejection : Type :=
| Message (text : string)
| AxiosFailure (e : axios_error)
| Refused (r : response)
| TypeError
| DatabaseError.

Definition outcome (A : Type) : Type := settled rejection A.

(** Everything that leaves the handler, in the order it happens. *)
Inductive event : Type :=
| topics_findAll (where_ : gmap string string)
| referenceLookups_findOne (where_reference : string)
| topics_save (row : topic)
| axios_get (target : string) (cfg : config)
| discourse (c : discourse_call)
| new_Date
| resp_send (code : Z) (payload : jsval).

(** What becomes of a query or an insert on [db.topics]: it is carried
    out, it is rejected, or its promise never settles. *)
Inductive db_reply : Type := Completed | Failed | Unanswered.

(** The parties the handler talks to.  Each answers from the history of
    events so far and the call at hand, so an environment may fail, recover
    or change its mind at any point. *)
Record Env : Type := {
  (** what becomes of this query or insert on [db.topics] *)
  database : list event -> event -> db_reply;
  (** the comparison a [where] clause makes on a column other than the
      four textual ones below: the table definition is not in these
      sources *)
  other_column : string -> string -> topic -> bool;
  (** the answer of [db.referenceLookups.findOne] *)
  route_lookup : list event -> string -> outcome (option referenceLookup);
  (** the answer of the network to [axios.get] *)
  network : list event -> string -> config -> http_reply;
  (** how the promise of a forum client method settles *)
  forum : list event -> discourse_call -> outcome response;
  (** the system clock *)
  clock : list event -> Z
}.

(** The mapping table and the log. *)
Record world : Type := {
  topics : list topic;
  trace : list event
}.

Definition log (ev : event) (w : world) : world :=
  {| topics := topics w; trace := trace w ++ [ev] |}.

(** A promise: run against a world, it ends in an outcome and a world. *)
Definition Promise (A : Type) : Type := world -> outcome A * world.

Definition resolve {A} (a : A) : Promise A := fun w => (Resolved a, w).

Definition reject {A} (e : rejection) : Promise A := fun w => (Rejected e, w).

(** [p.then(f)]: an exception thrown by [f] rejects the derived promise,
    which is how [f] is written below. *)
Definition then_ {A B} (f : A -> Promise B) (p : Promise A) : Promise B :=
  fun w =>
    match p w with
    | (Resolved a, w') => f a w'
    | (Rejected e, w') => (Rejected e, w')
    | (Pending, w') => (Pending, w')
    end.

(** [p.catch(h)]. *)
Definition catch_ {A} (h : rejection -> Promise A) (p : Promise A) : Promise A :=
  fun w =>
    match p w with
    | (Resolved a, w') => (Resolved a, w')
    | (Rejected e, w') => h e w'
    | (Pending, w') => (Pending, w')
    end.

(** [new Promise((resolve, reject) => { p })] where only the callbacks of
    [p] call [resolve]: a rejection of [p] itself is handled by nobody and
    the new promise never settles. *)
Definition unhandled {A} (p : Promise A) : Promise A :=
  fun w =>
    match p w with
    | (Rejected _, w') => (Pending, w')
    | r => r
    end.

(** An expression that may throw inside a callback. *)
Definition throwing {A} (o : option A) : Promise A :=
  match o with
  | Some a => resolve a
  | None => reject TypeError
  end.

(** [p |> then_ f |> catch_ h] reads as [p.then(f).catch(h)]. *)
Notation "p |> g" := (g p) (at level 50, left associativity, only parsing).

(** The rows a [where] object selects: every key is a column compared for
    equality. *)
Definition where_clause (env : Env) (k v : string) (row : topic) : bool :=
  if String.eqb k "reference" then String.eqb (reference row) v
  else if String.eqb k "referenceId" then String.eqb (referenceId row) v
  else if String.eqb k "createdBy" then String.eqb (createdBy row) v
  else if String.eqb k "updatedBy" then String.eqb (updatedBy row) v
  else other_column env k v row.

Definition selected (env : Env) (where_ : gmap string string) (row : topic) : bool :=
  bool_decide (map_Forall (fun k v => where_clause env k v row = true) where_).

Section Primitives.

Variable env : Env.

(** [db.topics.findAll({ where })]. *)
Definition db_topics_findAll (where_ : gmap string string) : Promise (list topic) :=
  fun w =>
    let ev := topics_findAll where_ in
    match database env (trace w) ev with
    | Completed => (Resolved (List.filter (selected env where_) (topics w)), log ev w)
    | Failed => (Rejected DatabaseError, log ev w)
    | Unanswered => (Pending, log ev w)
    end.

(** [db.referenceLookups.findOne({ where: { reference } })]. *)
Definition db_referenceLookups_findOne (ref : string) : Promise (option referenceLookup) :=
  fun w => (route_lookup env (trace w) ref, log (referenceLookups_findOne ref) w).

(** [db.topics.build(row).save()]: an insert at the end of the table.  A
    rejected insert leaves the table as it was, and an insert whose promise
    never settles is taken not to have been applied. *)
Definition save (row : topic) : Promise unit :=
  fun w =>
    let ev := topics_save row in
    match database env (trace w) ev with
    | Completed => (Resolved tt, {| topics := topics w ++ [row]; trace := trace w ++ [ev] |})
    | Failed => (Rejected DatabaseError, log ev w)
    | Unanswered => (Pending, log ev w)
    end.

(** [axios.get(url, config)]. *)
Definition axios_dot_get (target : string) (cfg : config) : Promise response :=
  fun w =>
    (match settle (timeout cfg) (network env (trace w) target cfg) with
     | Resolved r => Resolved r
     | Rejected e => Rejected (AxiosFailure e)
     | Pending => Pending
     end, log (axios_get target cfg) w).

(** A method of the forum client. *)
Definition discourseClient (c : discourse_call) : Promise response :=
  fun w => (forum env (trace w) c, log (discourse c) w).

(** [new Date()]. *)
Definition Date_now : Promise Z :=
  fun w => (Resolved (clock env (trace w)), log new_Date w).

(** [resp.status(code).send(payload)]. *)
Definition send (code : Z) (payload : jsval) : Promise unit :=
  fun w => (Resolved tt, log (resp_send code payload) w).

End Primitives.

(** ** app/routes/topics/list.js *)

(** What the handler reads of the Express request. *)
Record express_request : Type := {
  (** [req.query.filter] *)
  query_filter : option string;
  (** [req.header.authorization], the token handed to
      [userHasAccessToEntity] *)
  header_authorization : option string;
  (** [req.headers.authorization], the token handed to [getTopcoderUser] *)
  headers_authorization : option string;
  (** [req.authUser.handle] *)
  authUser_handle : string
}.

(** What the first [.then] of the handler passes to the second: the axios
    response of the creation, or what [getTopic] resolved to. *)
Inductive fetched : Type :=
| Created (r : response)
| Document (doc : jsval).

(** [topic.data] in the last [.then]. *)
Definition fetched_data (t : fetched) : option jsval :=
  match t with
  | Created r => Some (data r)
  | Document doc => get doc "data"
  end.

(** [error.response.status == 403]: [error.response] is defined only on
    the error axios raises for a rejected status. *)
Definition error_is_403 (error : rejection) : option bool :=
  match error with
  | AxiosFailure (HttpError r) => Some (Z.eqb (status r) 403)
  | _ => None
  end.

Definition header_value (o : option string) : jsval :=
  match o with
  | Some s => JStr s
  | None => JUndefined
  end.

(** The bodies of the two error answers. *)
Definition validation_message : jsval :=
  JObj [("message", JStr "Please provide reference and referenceId filter parameters")].

Definition failure_message : jsval :=
  JObj [("message", JStr "Error fetching topic!")].

Section ListJs.

Variable js : Builtins.
Variable cfg : Config.
Variable env : Env.

(** The forum client methods as both revisions define them: [getUser] and
    [getTopic] resolve to [response.data], the others to the response. *)
Definition discourseClient_getUser (username : string) : Promise jsval :=
  discourseClient env (GetUser username)
  |> then_ (fun response => resolve (data response)).

Definition discourseClient_getTopic (topicId : jsval) (username : string) : Promise jsval :=
  discourseClient env (GetTopic topicId username)
  |> then_ (fun response => resolve (data response)).

Definition topicLookupExists (filter : gmap string string) : Promise (list topic) :=
  db_topics_findAll env filter
  |> then_ (fun result => resolve result).

(** The configuration of the member service call: no timeout. *)
Definition member_config (authToken : option string) : config :=
  {| headers := [("Authorization", header_value authToken);
                 ("Accept", JStr "application/json");
                 ("Content-Type", JStr "application/json")];
     timeout := None |}.

Definition getTopcoderUser (authToken : option string) (handle : string) : Promise jsval :=
  axios_dot_get env (memberServiceUrl cfg +:+ "/" +:+ handle) (member_config authToken)
  |> then_ (fun response =>
       throwing (result ← get (data response) "result"; get result "content"))
  |> catch_ (fun error => reject error).

(** The condition of the [if] in the [.then] of the authorization call. *)
Definition grants (response : response) : option bool :=
  if truthy (data response) then
    result ← get (data response) "result";
    if truthy result then
      st ← get result "status";
      ok ← loose_eq_number js st 200;
      if (ok : bool) then (content ← get result "content"; Some (truthy content))
      else Some false
    else Some false
  else Some false.

(** The configuration of the authorization call; an [undefined] token
    prints as such after ['Bearer ']. *)
Definition authorization_config (authToken : option string) : config :=
  {| headers := [("X-Request-Id", JStr "123");
                 ("Authorization", JStr ("Bearer " +:+ default "undefined" authToken));
                 ("Accept", JStr "application/json");
                 ("Content-Type", JStr "application/json")];
     timeout := Some 3000 |}.

Definition userHasAccessToEntity (authToken : option string) (reference referenceId : string)
  : Promise bool :=
  unhandled
    (db_referenceLookups_findOne env reference
     |> then_ (fun result =>
          match result with
          | None => resolve true
          | Some referenceLookup =>
              axios_dot_get env
                (String_replace js (endpoint referenceLookup) "{id}" referenceId)
                (authorization_config authToken)
              |> then_ (fun response => throwing (grants response))
              |> catch_ (fun error => resolve false)
          end)).

(** The arguments of the [createUser] call, evaluated left to right. *)
Definition createUser_arguments (user : jsval) : option (jsval * jsval * jsval) :=
  firstName ← get user "firstName";
  first ← plus js firstName (JStr " ");
  lastName ← get user "lastName";
  name ← plus js first lastName;
  handle ← get user "handle";
  email ← get user "email";
  Some (name, handle, email).

(** The [else] branch of [checkAccessAndProvision]: look the forum user
    up and create it when the lookup fails. *)
Definition ensureUser (req : express_request) : Promise jsval :=
  discourseClient_getUser (authUser_handle req)
  |> then_ (fun user => resolve user)
  |> catch_ (fun error =>
       getTopcoderUser (headers_authorization req) (authUser_handle req)
       |> then_ (fun user =>
            throwing (createUser_arguments user)
            |> then_ (fun '(name, handle, email) =>
                 discourseClient env (CreateUser name handle email (defaultDiscoursePw cfg))
                 |> then_ (fun result =>
                      throwing (get (data result) "success")
                      |> then_ (fun success =>
                           if truthy success then resolve (data result)
                           else reject (Refused result)))
                 |> catch_ (fun error => reject error)))
       |> catch_ (fun error => reject error)).

Definition checkAccessAndProvision (req : express_request) (filter : gmap string string)
  : Promise jsval :=
  userHasAccessToEntity (header_authorization req)
    (prop_text filter "reference") (prop_text filter "referenceId")
  |> then_ (fun hasAccess =>
       if negb hasAccess then reject (Message "User doesn't have access to entity")
       else ensureUser req).

(** The loop over the ['&']-separated segments of the query filter. *)
Definition parseFilter (query : option string) : gmap string string :=
  foldl (fun filter value =>
           match Js.split "="%char value with
           | [k; v] => set_prop filter k v
           | _ => filter
           end)
        ∅ (Js.split "&"%char (default EmptyString query)).

Definition discussion_title (filter : gmap string string) : string :=
  "Discussion for " +:+ prop_text filter "reference" +:+ " " +:+ prop_text filter "referenceId".

(** The two branches on the result of the lookup. *)
Definition createTopic (req : express_request) (filter : gmap string string) : Promise fetched :=
  checkAccessAndProvision req filter
  |> then_ (fun _ =>
       discourseClient env
         (CreatePrivatePost (discussion_title filter) (discussion_title filter)
            (authUser_handle req))
       |> then_ (fun response =>
            if Z.eqb (status response) 200 then
              throwing (get (data response) "topic_id")
              |> then_ (fun topic_id =>
                   Date_now env |> then_ (fun created =>
                   Date_now env |> then_ (fun updated =>
                   save env {| reference := prop_text filter "reference";
                               referenceId := prop_text filter "referenceId";
                               discourseTopicId := topic_id;
                               createdAt := created;
                               createdBy := authUser_handle req;
                               updatedAt := updated;
                               updatedBy := authUser_handle req |}
                   |> then_ (fun _ => resolve (Created response))
                   |> catch_ (fun error => reject error))))
            else reject (Refused response)))
  |> catch_ (fun error => reject error).

Definition fetchTopic (req : express_request) (filter : gmap string string) (pgTopic : topic)
  : Promise fetched :=
  discourseClient_getTopic (discourseTopicId pgTopic) (authUser_handle req)
  |> then_ (fun response => resolve (Document response))
  |> catch_ (fun error =>
       throwing (error_is_403 error)
       |> then_ (fun forbidden =>
            if (forbidden : bool) then
              checkAccessAndProvision req filter
              |> then_ (fun discourseUser =>
                   discourseClient env
                     (GrantAccess (authUser_handle req) (discourseTopicId pgTopic))
                   |> then_ (fun _ =>
                        discourseClient_getTopic (discourseTopicId pgTopic)
                          (authUser_handle req)
                        |> then_ (fun response => resolve (Document response))))
            else reject error)).

(** The exported handler [(req, resp) => ...]. *)
Definition handler (req : express_request) : Promise unit :=
  let filter := parseFilter (query_filter req) in
  if falsy_prop filter "reference" || falsy_prop filter "referenceId" then
    send 400 validation_message
  else
    topicLookupExists filter
    |> then_ (fun result =>
         match result with
         | [] => createTopic req filter
         | pgTopic :: _ => fetchTopic req filter pgTopic
         end)
    |> then_ (fun topic =>
         throwing (fetched_data topic)
         |> then_ (fun payload => send 200 payload))
    |> catch_ (fun error =>
         send 500 failure_message).

End ListJs.

(** ** The forum oracle behind a revision of the client

    How the promise of a method settles when a revision of
    services/discourse.js carries it over HTTP: the revision builds the
    request, or throws, and axios, configured without a timeout, settles it
    from the reply of the forum. *)
Definition forum_over_http
    (request_of : discourse_call -> option forum_request)
    (server : list event -> forum_request -> http_reply)
  : list event -> discourse_call -> outcome response :=
  fun tr c =>
    match request_of c with
    | None => Rejected TypeError
    | Some rq =>
        match settle None (server tr rq) with
        | Resolved r => Resolved r
        | Rejected e => Rejected (AxiosFailure e)
        | Pending => Pending
        end
    end.

(** ** Reading the log and the table *)

Definition count (P : event -> bool) (tr : list event) : nat :=
  length (List.filter P tr).

Definition is_findAll (ev : event) : bool :=
  match ev with topics_findAll _ => true | _ => false end.

Definition is_findOne (ev : event) : bool :=
  match ev with referenceLookups_findOne _ => true | _ => false end.

Definition is_save (ev : event) : bool :=
  match ev with topics_save _ => true | _ => false end.

Definition is_createUser (ev : event) : bool :=
  match ev with discourse (CreateUser _ _ _ _) => true | _ => false end.

Definition is_createPrivatePost (ev : event) : bool :=
  match ev with discourse (CreatePrivatePost _ _ _) => true | _ => false end.

Definition is_getTopic (ev : event) : bool :=
  match ev with discourse (GetTopic _ _) => true | _ => false end.

Definition is_grantAccess (ev : event) : bool :=
  match ev with discourse (GrantAccess _ _) => true | _ => false end.

Definition is_send (ev : event) : bool :=
  match ev with resp_send _ _ => true | _ => false end.

(** The entity a row maps and the thread it maps it to. *)
Definition entity_and_thread (row : topic) : string * string * jsval :=
  (reference row, referenceId row, discourseTopicId row).

(** ** The filter, as the statement about its parsing describes it *)

(** The segments of the query that split into exactly two parts on ['='],
    in order. *)
Definition well_formed_pairs (query : option string) : list (string * string) :=
  omap (fun value =>
          match Js.split "="%char value with
          | [k; v] => Some (k, v)
          | _ => None
          end)
       (Js.split "&"%char (default EmptyString query)).

(** The value a key ends up with: that of the last well-formed pair that
    names it. *)
Definition last_value (k : string) (pairs : list (string * string)) : option string :=
  snd <$> last (List.filter (fun kv => String.eqb (fst kv) k) pairs).

(** ** Sample runtime, configuration, requests and environments

    Used by the examples below.  The sample runtime follows ECMAScript on
    the values the examples use (strings without ['$'], integers, plain
    objects and arrays of them, decimal numerals compared with a number) and
    reports a throw elsewhere. *)

Definition replace_first (s pattern replacement : string) : string :=
  match String.index 0 pattern s with
  | Some i =>
      String.substring 0 i s +:+ replacement +:+
      String.substring (i + String.length pattern)
        (String.length s - i - String.length pattern) s
  | None => s
  end.

Fixpoint sample_text (v : jsval) : string :=
  match v with
  | JUndefined => "undefined"
  | JNull => "null"
  | JBool true => "true"
  | JBool false => "false"
  | JNum n => pretty n
  | JStr s => s
  | JArr elems =>
      (fix join (l : list jsval) : string :=
         match l with
         | [] => EmptyString
         | x :: rest =>
             let text := match x with
                         | JUndefined | JNull => EmptyString
                         | _ => sample_text x
                         end in
             match rest with
             | [] => text
             | _ => text +:+ "," +:+ join rest
             end
         end) elems
  | JObj _ => "[object Object]"
  end.

Definition sample_plus (a b : jsval) : option jsval :=
  match a, b with
  | JNum x, JNum y => Some (JNum (x + y))
  | JStr x, _ => Some (JStr (x +:+ sample_text b))
  | _, JStr y => Some (JStr (sample_text a +:+ y))
  | _, _ => None
  end.

Definition sample_js : Builtins :=
  {| String_replace := replace_first;
     ToString := fun v => Some (sample_text v);
     plus := sample_plus;
     coerced_eq := fun v n =>
       match v with
       | JStr s => Some (String.eqb s (pretty n))
       | _ => Some false
       end |}.

Definition sample_config : Config :=
  {| memberServiceUrl := "https://api.example.org/members";
     defaultDiscoursePw := "placeholder";
     discourseURL := "https://forum.example.org";
     discourseApiKey := "key";
     discourseSystemUsername := "system" |}.

Definition empty_world : world := {| topics := []; trace := [] |}.

Definition project_route : referenceLookup :=
  {| lookup_reference := "project";
     endpoint := "https://api.example.org/projects/{id}/access" |}.

(** The body [{result: {status: 200, content: {}}}]. *)
Definition granting_body : jsval :=
  JObj [("result", JObj [("status", JNum 200); ("content", JObj [])])].

(** The profile the member service holds for ["alice"]. *)
Definition alice_profile : jsval :=
  JObj [("firstName", JStr "Alice"); ("lastName", JStr "Doe");
        ("handle", JStr "alice"); ("email", JStr "alice@example.org")].

Definition alice_request : express_request :=
  {| query_filter := Some "reference=project&referenceId=42";
     header_authorization := None;
     headers_authorization := Some "token";
     authUser_handle := "alice" |}.

(** A second actor asks for the same entity with one more filter key. *)
Definition bob_request : express_request :=
  {| query_filter := Some "reference=project&referenceId=42&createdBy=bob";
     header_authorization := None;
     headers_authorization := Some "token";
     authUser_handle := "bob" |}.

(** A query with a repeated key and a [__proto__] key. *)
Definition repeated_key_request : express_request :=
  {| query_filter := Some "reference=a&reference=project&referenceId=42&__proto__=x";
     header_authorization := None;
     headers_authorization := Some "token";
     authUser_handle := "alice" |}.

(** An environment in which nothing is configured and nothing answers. *)
Definition silent_env : Env :=
  {| database := fun _ _ => Completed;
     other_column := fun _ _ _ => false;
     route_lookup := fun _ _ => Resolved None;
     network := fun _ _ _ => Silent;
     forum := fun _ _ => Pending;
     clock := fun tr => Z.of_nat (length tr) |}.

Definition with_network (env : Env) (net : list event -> string -> config -> http_reply) : Env :=
  {| database := database env;
     other_column := other_column env;
     route_lookup := route_lookup env;
     network := net;
     forum := forum env;
     clock := clock env |}.

Definition with_routes (env : Env)
    (routes : list event -> string -> outcome (option referenceLookup)) : Env :=
  {| database := database env;
     other_column := other_column env;
     route_lookup := routes;
     network := network env;
     forum := forum env;
     clock := clock env |}.

Definition with_forum (env : Env) (f : list event -> discourse_call -> outcome response) : Env :=
  {| database := database env;
     other_column := other_column env;
     route_lookup := route_lookup env;
     network := network env;
     forum := f;
     clock := clock env |}.

(** The route for ["project"] is configured. *)
Definition routed_env : Env :=
  with_routes silent_env
    (fun _ ref => Resolved (if String.eqb ref "project" then Some project_route else None)).

(** The authorization endpoint answers 201 Created with the granting
    body. *)
Definition created_env : Env :=
  with_network routed_env (fun _ _ _ => Reply 201 granting_body).

(** The forum knows the users created so far, but every user lookup is
    lost on the way (a transport failure, not a "not found"); the member
    service answers with the profile. *)
Definition flaky_lookup_env : Env :=
  with_forum
    (with_network silent_env
       (fun _ _ _ => Reply 200 (JObj [("result", JObj [("content", alice_profile)])])))
    (fun tr c =>
       match c with
       | GetUser _ => Rejected (AxiosFailure NetworkError)
       | CreateUser _ _ _ _ =>
           Resolved {| status := 200;
                       data := JObj [("success", JBool (Nat.eqb (count is_createUser tr) 0))] |}
       | _ => Pending
       end).

(** No route is configured, every user exists in the forum, and the forum
    numbers the threads it creates. *)
Definition open_forum_env : Env :=
  with_forum silent_env
    (fun tr c =>
       match c with
       | GetUser _ => Resolved {| status := 200; data := JObj [] |}
       | CreatePrivatePost _ _ _ =>
           Resolved {| status := 200;
                       data := JObj [("topic_id",
                                      JNum (Z.of_nat (S (count is_createPrivatePost tr))))] |}
       | GetTopic id _ => Resolved {| status := 200; data := JObj [("id", id)] |}
       | _ => Pending
       end).

(** Scenario B of the specification: the mapping of challenge 7 exists,
    the forum refuses the fetch with 403 until access has been granted. *)
Definition challenge_mapping : topic :=
  {| reference := "challenge"; referenceId := "7"; discourseTopicId := JStr "t123";
     createdAt := 0; createdBy := "carol"; updatedAt := 0; updatedBy := "carol" |}.

Definition challenge_world : world := {| topics := [challenge_mapping]; trace := [] |}.

Definition challenge_request : express_request :=
  {| query_filter := Some "reference=challenge&referenceId=7";
     header_authorization := None;
     headers_authorization := Some "token";
     authUser_handle := "alice" |}.

Definition forbidden : outcome response :=
  Rejected (AxiosFailure (HttpError {| status := 403; data := JNull |})).



(** The forum refuses every fetch with 403, granted or not. *)
Definition locked_env : Env :=
  with_forum silent_env
    (fun tr c =>
       match c with
       | GetUser _ => Resolved {| status := 200; data := JObj [] |}
       | GrantAccess _ _ => Resolved {| status := 200; data := JObj [] |}
       | GetTopic _ _ => forbidden
       | _ => Pending
       end).

(** Scenario A of the specification with the forum user absent: the route
    of ["project"] is configured, its endpoint grants, the forum does not
    know the actor, and the member service holds the profile. *)
Definition scenario_A_env : Env :=
  with_forum
    (with_network routed_env
       (fun _ target _ =>
          if String.eqb target "https://api.example.org/projects/42/access"
          then Reply 200 granting_body
          else Reply 200 (JObj [("result", JObj [("content", alice_profile)])])))
    (fun tr c =>
       match c with
       | GetUser _ =>
           Rejected (AxiosFailure (HttpError {| status := 404; data := JNull |}))
       | CreateUser _ _ _ _ =>
           Resolved {| status := 200; data := JObj [("success", JBool true)] |}
       | CreatePrivatePost _ _ _ =>
           Resolved {| status := 200; data := JObj [("topic_id", JNum 17)] |}
       | _ => Pending
       end).

(** ** Further readings of the log, and the encoding of a filter *)

Definition is_discourse (ev : event) : bool :=
  match ev with discourse _ => true | _ => false end.

Definition is_axios_get (ev : event) : bool :=
  match ev with axios_get _ _ => true | _ => false end.

(** The characters [encodeURIComponent] can produce. *)
Definition uri_safe (c : Ascii.ascii) : bool :=
  unreserved c || Ascii.eqb c "%"%char.

(** A key or value that a filter string can carry: free of ['&'] and
    ['=']. *)
Definition plain (s : string) : bool :=
  negb (occurs "&"%char s) && negb (occurs "="%char s).

(** The filter string that names the given pairs, in order. *)
Definition query_of (pairs : list (string * string)) : string :=
  join "&" (map (fun kv => fst kv +:+ "=" +:+ snd kv) pairs).

(** What a call of the run has to do with the actor and the entity of the
    request: the forum calls name the actor, the creation carries the title
    derived from the filter, the member lookup asks for the actor, the
    lookup uses the filter and the rows written are the entity's. *)
Definition concerns_request (cfg : Config) (req : express_request) (ev : event) : Prop :=
  let filter := parseFilter (query_filter req) in
  let h := authUser_handle req in
  match ev with
  | topics_findAll where_ => where_ = filter
  | referenceLookups_findOne ref => ref = prop_text filter "reference"
  | topics_save row =>
      reference row = prop_text filter "reference"
      /\ referenceId row = prop_text filter "referenceId"
      /\ createdBy row = h /\ updatedBy row = h
  | axios_get target c =>
      c = authorization_config (header_authorization req)
      \/ (target = memberServiceUrl cfg +:+ "/" +:+ h
          /\ c = member_config (headers_authorization req))
  | discourse (GetUser u) => u = h
  | discourse (CreateUser _ _ _ password) => password = defaultDiscoursePw cfg
  | discourse (CreatePrivatePost title post users) =>
      title = discussion_title filter /\ post = discussion_title filter /\ users = h
  | discourse (GetTopic _ u) => u = h
  | discourse (GrantAccess u _) => u = h
  | new_Date => True
  | resp_send _ _ => True
  end.

(** The entitlement endpoint of ["project"] cannot be looked up: the
    query on [referenceLookups] is rejected. *)
Definition broken_routes_env : Env :=
  with_routes open_forum_env (fun _ _ => Rejected DatabaseError).

(** The route of ["project"] is configured and its endpoint denies. *)
Definition denying_env : Env :=
  with_forum (with_network routed_env (fun _ _ _ => Reply 403 JNull)) (forum open_forum_env).

(** The forum does not find the thread. *)
Definition missing_thread_env : Env :=
  with_forum silent_env
    (fun _ _ => Rejected (AxiosFailure (HttpError {| status := 404; data := JNull |}))).

(** The calls that leave a run without an answer when they are made with
    the history [tr] behind them: a call whose promise never settles, and
    the lookup in [referenceLookups] also when it is rejected, since nobody
    handles that rejection. *)
Definition leaves_pending (env : Env) (tr : list event) (ev : event) : Prop :=
  match ev with
  | topics_findAll _ | topics_save _ => database env tr ev = Unanswered
  | referenceLookups_findOne ref =>
      route_lookup env tr ref = Pending \/ exists e, route_lookup env tr ref = Rejected e
  | axios_get target c => network env tr target c = Silent /\ timeout c = None
  | discourse c => forum env tr c = Pending
  | new_Date | resp_send _ _ => False
  end.

Definition with_database (env : Env) (db : list event -> event -> db_reply) : Env :=
  {| database := db;
     other_column := other_column env;
     route_lookup := route_lookup env;
     network := network env;
     forum := forum env;
     clock := clock env |}.

(** The database takes every insert and never acknowledges it. *)
Definition lost_insert_env : Env :=
  with_database open_forum_env
    (fun _ ev => match ev with topics_save _ => Unanswered | _ => Completed end).

(** The database never answers a query on [db.topics]. *)
Definition stalled_lookup_env : Env :=
  with_database open_forum_env (fun _ _ => Unanswered).

(** ** Properties *)

(** *** Small evaluations *)

Example split_two : Js.split "="%char "reference=project" = ["reference"; "project"].
Proof. reflexivity. Qed.

Example split_none : Js.split "="%char EmptyString = [EmptyString].
Proof. reflexivity. Qed.

Example split_three : Js.split "="%char "a=b=c" = ["a"; "b"; "c"].
Proof. reflexivity. Qed.

Example settle_200 : settle (Some 3000) (Reply 200 JNull) = Resolved {| status := 200; data := JNull |}.
Proof. reflexivity. Qed.

Example settle_403 :
  settle None (Reply 403 JNull) = Rejected (HttpError {| status := 403; data := JNull |}).
Proof. reflexivity. Qed.

(** *** Running promises *)

Lemma then_resolved {A B} (f : A -> Promise B) (p : Promise A) w a w' :
  p w = (Resolved a, w') -> then_ f p w = f a w'.
Proof. unfold then_. intros ->. reflexivity. Qed.

Lemma then_rejected {A B} (f : A -> Promise B) (p : Promise A) w e w' :
  p w = (Rejected e, w') -> then_ f p w = (Rejected e, w').
Proof. unfold then_. intros ->. reflexivity. Qed.

Lemma then_pending {A B} (f : A -> Promise B) (p : Promise A) w w' :
  p w = (Pending, w') -> then_ f p w = (Pending, w').
Proof. unfold then_. intros ->. reflexivity. Qed.

Lemma catch_resolved {A} (h : rejection -> Promise A) (p : Promise A) w a w' :
  p w = (Resolved a, w') -> catch_ h p w = (Resolved a, w').
Proof. unfold catch_. intros ->. reflexivity. Qed.

Lemma catch_rejected {A} (h : rejection -> Promise A) (p : Promise A) w e w' :
  p w = (Rejected e, w') -> catch_ h p w = h e w'.
Proof. unfold catch_. intros ->. reflexivity. Qed.

Lemma catch_reject_id {A} (p : Promise A) w :
  catch_ (fun error => reject error) p w = p w.
Proof. unfold catch_, reject. destruct (p w) as [[a|e|] w']; reflexivity. Qed.

Lemma then_resolve_id {A} (p : Promise A) w :
  then_ (fun a => resolve a) p w = p w.
Proof. unfold then_, resolve. destruct (p w) as [[a|e|] w']; reflexivity. Qed.

Lemma falsy_prop_absent (o : gmap string string) k :
  o !! k = None -> falsy_prop o k = true.
Proof. unfold falsy_prop. intros ->. reflexivity. Qed.

(** *** Validation of the filter *)

Lemma handler_falsy_filter js cfg env req w :
  falsy_prop (parseFilter (query_filter req)) "reference" = true \/
  falsy_prop (parseFilter (query_filter req)) "referenceId" = true ->
  handler js cfg env req w = (Resolved tt, log (resp_send 400 validation_message) w).
Proof.
  intros H. unfold handler.
  assert (falsy_prop (parseFilter (query_filter req)) "reference"
          || falsy_prop (parseFilter (query_filter req)) "referenceId" = true) as ->.
  { apply orb_true_iff. exact H. }
  reflexivity.
Qed.

(** C8.  A request whose parsed filter lacks [reference] or lacks
    [referenceId] is answered with status 400 and the fixed message; the
    run consists of that one [resp.send] and nothing else: no lookup in
    either table, no [axios.get], no forum call, and the mapping table is
    untouched. *)
Theorem handler_missing_filter_is_400 js cfg env req w :
  parseFilter (query_filter req) !! "reference" = None \/
  parseFilter (query_filter req) !! "referenceId" = None ->
  handler js cfg env req w = (Resolved tt, log (resp_send 400 validation_message) w)
  /\ topics (snd (handler js cfg env req w)) = topics w
  /\ trace (snd (handler js cfg env req w)) = trace w ++ [resp_send 400 validation_message].
Proof.
  intros H.
  assert (handler js cfg env req w = (Resolved tt, log (resp_send 400 validation_message) w)) as E.
  { apply handler_falsy_filter. destruct H as [H|H]; [left|right]; by apply falsy_prop_absent. }
  rewrite E. done.
Qed.

Lemma handler_missing_filter_is_400_witness :
  handler sample_js sample_config silent_env
    {| query_filter := Some "reference=project";
       header_authorization := None;
       headers_authorization := None;
       authUser_handle := "alice" |}
    empty_world
  = (Resolved tt, log (resp_send 400 validation_message) empty_world).
Proof.
  apply (handler_missing_filter_is_400 sample_js sample_config silent_env
           {| query_filter := Some "reference=project";
              header_authorization := None;
              headers_authorization := None;
              authUser_handle := "alice" |}
           empty_world).
  right. reflexivity.
Defined.

(** *** The entitlement check *)

(** C4.  When no route is configured for the reference type (the lookup in
    [referenceLookups] finds no row), the check resolves to [true] for any
    token and identifier, the lookup is the only call made, and the answer
    is the same whatever the network would have replied. *)
Theorem userHasAccessToEntity_default_allow js env authToken ref refId w :
  route_lookup env (trace w) ref = Resolved None ->
  userHasAccessToEntity js env authToken ref refId w
    = (Resolved true, log (referenceLookups_findOne ref) w)
  /\ forall net,
       userHasAccessToEntity js (with_network env net) authToken ref refId w
       = userHasAccessToEntity js env authToken ref refId w.
Proof.
  intros H.
  assert (forall e, route_lookup e (trace w) ref = Resolved None ->
            userHasAccessToEntity js e authToken ref refId w
            = (Resolved true, log (referenceLookups_findOne ref) w)) as G.
  { intros e He. unfold userHasAccessToEntity, unhandled, then_, db_referenceLookups_findOne.
    rewrite He. reflexivity. }
  split; [by apply G|].
  intros net. rewrite (G env H). by apply G.
Qed.

Lemma userHasAccessToEntity_default_allow_witness :
  userHasAccessToEntity sample_js silent_env (Some "token") "project" "42" empty_world
    = (Resolved true, log (referenceLookups_findOne "project") empty_world)
  /\ forall net,
       userHasAccessToEntity sample_js (with_network silent_env net) (Some "token")
         "project" "42" empty_world
       = userHasAccessToEntity sample_js silent_env (Some "token") "project" "42" empty_world.
Proof.
  apply (userHasAccessToEntity_default_allow sample_js silent_env (Some "token")
           "project" "42" empty_world).
  reflexivity.
Defined.

(** What the check does once a route is found: one [axios.get], whose
    settled promise decides. *)
Lemma userHasAccessToEntity_routed js env authToken ref refId w route :
  route_lookup env (trace w) ref = Resolved (Some route) ->
  let w1 := log (referenceLookups_findOne ref) w in
  let target := String_replace js (endpoint route) "{id}" refId in
  let cfg := authorization_config authToken in
  userHasAccessToEntity js env authToken ref refId w =
    (Resolved match settle (timeout cfg) (network env (trace w1) target cfg) with
              | Resolved response => default false (grants js response)
              | _ => false
              end,
     log (axios_get target cfg) w1).
Proof.
  intros H w1 target cfg.
  unfold userHasAccessToEntity, unhandled, then_, catch_, db_referenceLookups_findOne,
    axios_dot_get.
  rewrite H. fold w1. fold target. fold cfg.
  change (timeout cfg) with (Some 3000).
  destruct (network env (trace w1) target cfg) as [s b| |]; simpl; try reflexivity.
  destruct (validateStatus s); simpl; try reflexivity.
  destruct (grants js _); reflexivity.
Qed.

Lemma grants_true js r :
  grants js r = Some true <->
  exists result st content,
    truthy (data r) = true /\ get (data r) "result" = Some result /\ truthy result = true
    /\ get result "status" = Some st /\ loose_eq_number js st 200 = Some true
    /\ get result "content" = Some content /\ truthy content = true.
Proof.
  unfold grants. split.
  - intros H.
    destruct (truthy (data r)) eqn:Hd; [|discriminate].
    destruct (get (data r) "result") as [result|] eqn:Hr; [|discriminate]. simpl in H.
    destruct (truthy result) eqn:Htr; [|discriminate].
    destruct (get result "status") as [st|] eqn:Hs; [|discriminate]. simpl in H.
    destruct (loose_eq_number js st 200) as [[|]|] eqn:He; try discriminate. simpl in H.
    destruct (get result "content") as [content|] eqn:Hc; [|discriminate]. simpl in H.
    exists result, st, content. repeat split; try done. congruence.
  - intros (result & st & content & -> & -> & Htr & Hs & He & Hc & Htc). simpl.
    rewrite Htr, Hs. simpl. rewrite He. simpl. rewrite Hc. simpl. by rewrite Htc.
Qed.

(** C1, as the code has it.  With a route configured the check always
    resolves, never rejects and never stays pending, after exactly one
    [axios.get] with a 3000 ms timeout; and it resolves to [true] exactly
    when the endpoint replied with a status in the 2xx range and a truthy
    body whose truthy [result] has [status == 200] and truthy [content].  A
    silent endpoint, a transport failure, a status outside 2xx and any other
    body all resolve to [false]. *)
Theorem userHasAccessToEntity_fail_closed js env authToken ref refId w route :
  route_lookup env (trace w) ref = Resolved (Some route) ->
  let w1 := log (referenceLookups_findOne ref) w in
  let target := String_replace js (endpoint route) "{id}" refId in
  let cfg := authorization_config authToken in
  exists granted : bool,
    userHasAccessToEntity js env authToken ref refId w
      = (Resolved granted, log (axios_get target cfg) w1)
    /\ timeout cfg = Some 3000
    /\ (granted = true <->
        exists s b result st content,
          network env (trace w1) target cfg = Reply s b
          /\ 200 <= s < 300
          /\ truthy b = true /\ get b "result" = Some result /\ truthy result = true
          /\ get result "status" = Some st /\ loose_eq_number js st 200 = Some true
          /\ get result "content" = Some content /\ truthy content = true).
Proof.
  intros H w1 target cfg.
  eexists. split; [apply (userHasAccessToEntity_routed _ _ _ _ _ _ _ H)|].
  split; [reflexivity|].
  fold w1 target cfg. split.
  - destruct (network env (trace w1) target cfg) as [s b| |] eqn:Hn; simpl; try discriminate.
    destruct (validateStatus s) eqn:Hv; simpl; try discriminate.
    destruct (grants js _) as [[|]|] eqn:Hg; simpl; try discriminate.
    intros _. apply grants_true in Hg as (result & st & content & ?). simpl in *.
    exists s, b, result, st, content. split; [done|]. split; [|done].
    unfold validateStatus in Hv. apply andb_true_iff in Hv as [? ?]. lia.
  - intros (s & b & result & st & content & -> & Hs & Hrest). simpl.
    assert (validateStatus s = true) as ->.
    { unfold validateStatus. apply andb_true_iff. split; lia. }
    simpl.
    assert (grants js {| status := s; data := b |} = Some true) as ->; [|reflexivity].
    apply grants_true. by exists result, st, content.
Qed.

Lemma userHasAccessToEntity_fail_closed_witness :
  exists granted : bool,
    userHasAccessToEntity sample_js routed_env (Some "token") "project" "42" empty_world
      = (Resolved granted,
         log (axios_get (String_replace sample_js (endpoint project_route) "{id}" "42")
                (authorization_config (Some "token")))
           (log (referenceLookups_findOne "project") empty_world))
    /\ granted = false.
Proof.
  destruct (userHasAccessToEntity_fail_closed sample_js routed_env (Some "token")
              "project" "42" empty_world project_route eq_refl)
    as (granted & E & _ & G).
  exists granted. split; [exact E|].
  destruct granted; [|reflexivity].
  destruct G as [G _]. destruct (G eq_refl) as (s & b & ? & ? & ? & Hn & _). discriminate Hn.
Defined.

(** C1, counterexample to the claim as stated.  The route for ["project"]
    is configured and the endpoint answers 201, which is not 200, with the
    body [{result: {status: 200, content: {}}}]: axios resolves every 2xx
    status and the callback never looks at [response.status], so the check
    grants. *)
Lemma userHasAccessToEntity_grants_on_201 :
  route_lookup created_env [] "project" = Resolved (Some project_route)
  /\ network created_env [referenceLookups_findOne "project"]
       "https://api.example.org/projects/42/access" (authorization_config (Some "token"))
     = Reply 201 granting_body
  /\ fst (userHasAccessToEntity sample_js created_env (Some "token") "project" "42"
            empty_world)
     = Resolved true.
Proof. repeat split. Qed.

(** *** Reading the log *)

Lemma count_app P (a b : list event) : count P (a ++ b) = (count P a + count P b)%nat.
Proof. unfold count. by rewrite List.filter_app, length_app. Qed.

Lemma count_log P ev w :
  count P (trace (log ev w)) = (count P (trace w) + if P ev then 1 else 0)%nat.
Proof. simpl. rewrite count_app. unfold count. simpl. by destruct (P ev). Qed.

(** Unfolds the promise combinators and the primitives. *)
Ltac unfold_promises :=
  unfold discourseClient_getUser, discourseClient_getTopic, topicLookupExists in *;
  unfold then_, catch_, unhandled, throwing, resolve, reject in *;
  unfold discourseClient, axios_dot_get, db_referenceLookups_findOne, db_topics_findAll,
    save, Date_now, send in *;
  cbv beta in *.

(** *** Exploring the runs of the handler *)

(** Opens the handler down to the primitives. *)
Ltac explore :=
  unfold handler, createTopic, fetchTopic, checkAccessAndProvision, ensureUser,
    userHasAccessToEntity, getTopcoderUser in *;
  unfold_promises.

(** Case analysis on whatever the run branches on next. *)
Ltac branch :=
  match goal with
  | p : (jsval * jsval * jsval)%type |- _ => destruct p as [[? ?] ?]
  | |- context [match forum ?e ?t ?c with _ => _ end] => destruct (forum e t c) eqn:?
  | |- context [match settle ?t ?r with _ => _ end] => destruct (settle t r) eqn:?
  | |- context [match route_lookup ?e ?t ?c with _ => _ end] =>
      destruct (route_lookup e t c) as [[?|]| |] eqn:?
  | |- context [match database ?e ?t ?c with _ => _ end] =>
      destruct (database e t c) eqn:?
  | |- context [match List.filter ?f ?l with _ => _ end] => destruct (List.filter f l) eqn:?
  | |- context [match ?o with Some _ => _ | None => _ end] => destruct o eqn:?
  | |- context [if ?b then _ else _] => destruct b eqn:?
  end; simpl.

(** Puts the log of a finished run in the form [trace w ++ events]. *)
Ltac flatten_trace := unfold log; simpl; rewrite <- ?app_assoc; simpl.

(** *** Provisioning of the forum user *)

(** The fast path: when [getUser] succeeds its data are returned as they
    are and nothing else is called. *)
Lemma ensureUser_existing js cfg env req w r :
  forum env (trace w) (GetUser (authUser_handle req)) = Resolved r ->
  ensureUser js cfg env req w
    = (Resolved (data r), log (discourse (GetUser (authUser_handle req))) w).
Proof.
  intros H. unfold ensureUser. unfold_promises. rewrite H. reflexivity.
Qed.

(** One run creates at most one user, and only after [getUser] was
    rejected; it never touches the mapping table. *)
Lemma ensureUser_creations js cfg env req w :
  topics (snd (ensureUser js cfg env req w)) = topics w
  /\ (count is_createUser (trace (snd (ensureUser js cfg env req w)))
        = count is_createUser (trace w)
      \/ (count is_createUser (trace (snd (ensureUser js cfg env req w)))
            = S (count is_createUser (trace w))
          /\ exists e, forum env (trace w) (GetUser (authUser_handle req)) = Rejected e)).
Proof.
  unfold ensureUser, getTopcoderUser. unfold_promises.
  destruct (forum env (trace w) (GetUser (authUser_handle req))) as [r|e|] eqn:Hu; simpl.
  - split; [done|]. left. rewrite count_app. unfold count; simpl. lia.
  - repeat branch; (split; [done|]); rewrite ?count_app; unfold count; simpl;
      first [ left; lia | right; split; [lia | by eexists] ].
  - split; [done|]. left. rewrite count_app. unfold count; simpl. lia.
Qed.

(** C5, as the code has it.  When [getUser] succeeds the provisioning step
    resolves to its data unchanged and calls nothing else; one run makes at
    most one [createUser] call, and makes it only after [getUser] was
    rejected, whatever the rejection was; and two successive runs make at
    most one [createUser] call between them when the second run's [getUser]
    succeeds. *)
Theorem ensureUser_provisions_once js cfg env req w :
  let h := authUser_handle req in
  let w1 := snd (ensureUser js cfg env req w) in
  let w2 := snd (ensureUser js cfg env req w1) in
  (forall r, forum env (trace w) (GetUser h) = Resolved r ->
     ensureUser js cfg env req w = (Resolved (data r), log (discourse (GetUser h)) w))
  /\ (count is_createUser (trace w1) <= S (count is_createUser (trace w)))%nat
  /\ (count is_createUser (trace w1) <> count is_createUser (trace w) ->
      exists e, forum env (trace w) (GetUser h) = Rejected e)
  /\ (forall r, forum env (trace w1) (GetUser h) = Resolved r ->
      (count is_createUser (trace w2) <= S (count is_createUser (trace w)))%nat).
Proof.
  intros h w1 w2.
  destruct (ensureUser_creations js cfg env req w) as [_ Hc]. fold w1 in Hc.
  split; [intros r; apply ensureUser_existing|].
  split; [destruct Hc as [->|[-> _]]; lia|].
  split; [intros Hne; destruct Hc as [Hc|[_ Hc]]; [contradiction|exact Hc]|].
  intros r Hr. unfold w2.
  rewrite (ensureUser_existing js cfg env req w1 r Hr). cbn [snd]. rewrite count_log. simpl.
  destruct Hc as [->|[-> _]]; lia.
Qed.

Lemma ensureUser_provisions_once_witness :
  ensureUser sample_js sample_config
    (with_forum silent_env (fun _ _ => Resolved {| status := 200; data := alice_profile |}))
    alice_request empty_world
  = (Resolved alice_profile, log (discourse (GetUser "alice")) empty_world).
Proof.
  destruct (ensureUser_provisions_once sample_js sample_config
              (with_forum silent_env
                 (fun _ _ => Resolved {| status := 200; data := alice_profile |}))
              alice_request empty_world) as [H _].
  apply (H {| status := 200; data := alice_profile |}). reflexivity.
Defined.

(** C5, counterexample to the claim as stated.  Every [getUser] fails with
    a transport error, which is not a "not found": the first run creates the
    user all the same, and the second run, although the user now exists,
    issues a second [createUser] call. *)
Lemma ensureUser_creates_twice :
  let w1 := snd (ensureUser sample_js sample_config flaky_lookup_env alice_request empty_world) in
  let w2 := snd (ensureUser sample_js sample_config flaky_lookup_env alice_request w1) in
  forum flaky_lookup_env [] (GetUser "alice") = Rejected (AxiosFailure NetworkError)
  /\ fst (ensureUser sample_js sample_config flaky_lookup_env alice_request empty_world)
     = Resolved (JObj [("success", JBool true)])
  /\ count is_createUser (trace w1) = 1%nat
  /\ count is_createUser (trace w2) = 2%nat.
Proof. repeat split. Qed.

(** *** Attribution of forum requests *)

(** The creation call of list.js under the two revisions: the later one
    posts the arguments shifted by one parameter, the earlier one takes the
    name for its logger and throws before any request is made. *)
Example createUser_call_later_revision :
  Discourse.request_of sample_js sample_config (fun _ => false)
    (CreateUser (JStr "Alice Doe") (JStr "alice") (JStr "alice@example.org") "placeholder")
  = Some {| method := POST;
            url := "/users";
            body := JObj [("name", JStr "Alice Doe"); ("username", JStr "alice");
                          ("email", JStr "placeholder"); ("password", JUndefined);
                          ("active", JBool true);
                          ("user_fields", JObj [("1", JStr "alice@example.org")])];
            params := [] |}.
Proof. reflexivity. Qed.

Example createUser_call_earlier_revision :
  forum_over_http (DiscourseEarly.request_of sample_js sample_config)
    (fun _ _ => Reply 200 (JObj [("success", JBool true)])) []
    (CreateUser (JStr "Alice Doe") (JStr "alice") (JStr "alice@example.org") "placeholder")
  = Rejected TypeError.
Proof. reflexivity. Qed.

Lemma occurs_app c a b : occurs c (a +:+ b) = occurs c a || occurs c b.
Proof.
  induction a as [|x a IH]; simpl; [reflexivity|]. rewrite IH. by rewrite orb_assoc.
Qed.

Lemma split_nonempty sep s : Js.split sep s <> [].
Proof.
  destruct s as [|c s]; simpl; [discriminate|].
  destruct (Ascii.eqb c sep); [discriminate|]. by destruct (Js.split sep s).
Qed.

Lemma split_free sep s : occurs sep s = false -> Js.split sep s = [s].
Proof.
  induction s as [|c s IH]; simpl; [reflexivity|].
  intros H. apply orb_false_iff in H as [-> H]. by rewrite (IH H).
Qed.

(** The query of a URL. *)
Lemma text_after_app c a b : occurs c a = false -> text_after c (a +:+ b) = text_after c b.
Proof.
  induction a as [|x a IH]; simpl; [reflexivity|].
  intros H. apply orb_false_iff in H as [-> H]. exact (IH H).
Qed.

Lemma text_after_free c s : occurs c s = false -> text_after c s = None.
Proof.
  induction s as [|x s IH]; simpl; [reflexivity|].
  intros H. apply orb_false_iff in H as [-> H]. exact (IH H).
Qed.

Lemma url_query_none u : occurs "?"%char u = false -> url_query u = [].
Proof. intros H. unfold url_query. by rewrite (text_after_free _ _ H). Qed.


Lemma append_assoc (a b c : string) : (a +:+ b) +:+ c = a +:+ (b +:+ c).
Proof.
  induction a as [|x a IH]; [reflexivity|].
  change (String x ((a +:+ b) +:+ c) = String x (a +:+ (b +:+ c))). by rewrite IH.
Qed.

(** What the requests of the two revisions carry as [api_username]. *)
Lemma api_usernames_plain cfg r :
  occurs "?"%char (url r) = false ->
  api_usernames cfg r = option_list (merged_param cfg r "api_username").
Proof. intros H. unfold api_usernames. by rewrite (url_query_none _ H). Qed.





(** *** Parsing of the filter *)

Lemma set_prop_lookup (o : gmap string string) k v k' :
  set_prop o k v !! k' =
    if String.eqb k "__proto__" then o !! k'
    else if String.eqb k k' then Some v else o !! k'.
Proof.
  unfold set_prop. destruct (String.eqb k "__proto__"); [reflexivity|].
  destruct (String.eqb_spec k k') as [->|Hne].
  - apply lookup_insert_eq.
  - by apply lookup_insert_ne.
Qed.

Lemma parseFilter_foldl query :
  parseFilter query
  = foldl (fun filter kv => set_prop filter (fst kv) (snd kv)) ∅ (well_formed_pairs query).
Proof.
  unfold parseFilter, well_formed_pairs.
  generalize (∅ : gmap string string) as acc.
  induction (Js.split "&"%char (default EmptyString query)) as [|value values IH]; intros acc.
  - reflexivity.
  - simpl foldl. rewrite IH. simpl omap.
    destruct (Js.split "="%char value) as [|k [|v [|? ?]]]; reflexivity.
Qed.

Lemma foldl_set_prop_lookup (pairs : list (string * string)) k :
  foldl (fun filter kv => set_prop filter (fst kv) (snd kv)) ∅ pairs !! k
  = if String.eqb k "__proto__" then None else last_value k pairs.
Proof.
  induction pairs as [|[k' v'] pairs IH] using rev_ind.
  - simpl. unfold last_value. simpl. rewrite lookup_empty. by destruct (String.eqb k "__proto__").
  - rewrite foldl_app. simpl. rewrite set_prop_lookup, IH.
    unfold last_value. rewrite List.filter_app. simpl.
    destruct (String.eqb_spec k' k) as [->|Hne].
    + rewrite last_snoc. simpl. by destruct (String.eqb k "__proto__").
    + rewrite app_nil_r. by destruct (String.eqb k' "__proto__").
Qed.

Lemma parseFilter_lookup query k :
  parseFilter query !! k
  = if String.eqb k "__proto__" then None else last_value k (well_formed_pairs query).
Proof. rewrite parseFilter_foldl. apply foldl_set_prop_lookup. Qed.

Lemma handler_starts_with_lookup js cfg env req w :
  falsy_prop (parseFilter (query_filter req)) "reference" = false ->
  falsy_prop (parseFilter (query_filter req)) "referenceId" = false ->
  exists rest,
    trace (snd (handler js cfg env req w))
    = trace w ++ topics_findAll (parseFilter (query_filter req)) :: rest
    /\ count is_findAll rest = 0%nat.
Proof.
  intros H1 H2. explore. rewrite H1, H2. simpl.
  repeat branch; flatten_trace; (eexists; split; [reflexivity|reflexivity]).
Qed.

(** C10, as the code has it.  The filter is built from the segments that
    split into exactly two parts on ['='], and from nothing else: each key
    other than [__proto__] holds, verbatim, the value of the last such
    segment naming it, and [__proto__] is never stored.  Once [reference]
    and [referenceId] are present, the object so built is the [where] of
    the one lookup the run makes, extra keys included. *)
Theorem handler_lookup_filter js cfg env req w :
  let filter := parseFilter (query_filter req) in
  let pairs := well_formed_pairs (query_filter req) in
  (forall k, filter !! k = if String.eqb k "__proto__" then None else last_value k pairs)
  /\ (falsy_prop filter "reference" = false -> falsy_prop filter "referenceId" = false ->
      exists rest,
        trace (snd (handler js cfg env req w)) = trace w ++ topics_findAll filter :: rest
        /\ count is_findAll rest = 0%nat).
Proof.
  intros filter pairs. split.
  - intros k. apply parseFilter_lookup.
  - apply handler_starts_with_lookup.
Qed.

Lemma handler_lookup_filter_witness :
  exists rest,
    trace (snd (handler sample_js sample_config silent_env alice_request empty_world))
    = trace empty_world
      ++ topics_findAll (parseFilter (Some "reference=project&referenceId=42")) :: rest
    /\ count is_findAll rest = 0%nat.
Proof.
  destruct (handler_lookup_filter sample_js sample_config silent_env alice_request empty_world)
    as [_ H].
  apply H; reflexivity.
Defined.

(** C10, counterexample to the claim as stated.  All four segments of the
    query are well formed, yet [reference=a] does not reach the lookup,
    being replaced by the later [reference=project], and [__proto__=x] does
    not reach it either. *)
Lemma repeated_key_not_verbatim :
  let query := query_filter repeated_key_request in
  well_formed_pairs query
    = [("reference", "a"); ("reference", "project"); ("referenceId", "42"); ("__proto__", "x")]
  /\ parseFilter query !! "reference" = Some "project"
  /\ parseFilter query !! "__proto__" = None
  /\ parseFilter query = {[ "reference" := "project"; "referenceId" := "42" ]}
  /\ head (trace (snd (handler sample_js sample_config silent_env repeated_key_request
                        empty_world)))
     = Some (topics_findAll {[ "reference" := "project"; "referenceId" := "42" ]}).
Proof. repeat split; vm_compute; reflexivity. Qed.

(** *** Writes to the mapping table *)

(** What one run does to the table: nothing, or one row appended on the
    miss path after a creation answered with status 200. *)
Lemma handler_frame js cfg env req w :
  let filter := parseFilter (query_filter req) in
  let h := authUser_handle req in
  let w' := snd (handler js cfg env req w) in
  topics w' = topics w
  \/ exists row tr r,
       topics w' = topics w ++ [row]
       /\ List.filter (selected env filter) (topics w) = []
       /\ forum env tr (CreatePrivatePost (discussion_title filter) (discussion_title filter) h)
          = Resolved r
       /\ status r = 200
       /\ get (data r) "topic_id" = Some (discourseTopicId row)
       /\ reference row = prop_text filter "reference"
       /\ referenceId row = prop_text filter "referenceId"
       /\ createdBy row = h /\ updatedBy row = h
       /\ fst (handler js cfg env req w) = Resolved tt
       /\ last (trace w') = Some (resp_send 200 (data r)).
Proof.
  intros filter h w'. subst w'. explore. fold filter. fold h.
  repeat branch;
    first
      [ left; reflexivity
      | right; do 3 eexists; flatten_trace;
        repeat split; try reflexivity; try eassumption;
        first [ by apply Z.eqb_eq | by rewrite last_app ] ].
Qed.

Lemma selected_exact env R I row :
  selected env {[ "reference" := R; "referenceId" := I ]} row = true
  <-> reference row = R /\ referenceId row = I.
Proof.
  unfold selected. rewrite bool_decide_eq_true.
  rewrite map_Forall_insert by (by apply lookup_singleton_ne).
  rewrite map_Forall_singleton. unfold where_clause. simpl.
  by rewrite !String.eqb_eq.
Qed.

Lemma filter_nonempty {A} (f : A -> bool) l x :
  In x l -> f x = true -> List.filter f l <> [].
Proof.
  intros Hin Hf Hnil.
  assert (In x (List.filter f l)) as H by (apply List.filter_In; done).
  rewrite Hnil in H. destruct H.
Qed.

(** C6, as the code has it.  A run leaves the table as it was or appends
    exactly one row; it appends only when the lookup with the whole parsed
    filter found nothing and the creation was answered with status 200, and
    the row holds the request's reference and referenceId, the actor and the
    returned [topic_id].  Rows already present are never removed or changed.
    On a mapping hit nothing is written, and when the filter holds only
    [reference] and [referenceId], an entity that has a mapping is not
    written again. *)
Theorem mapping_written_on_creation_only js cfg env req w :
  let filter := parseFilter (query_filter req) in
  let h := authUser_handle req in
  let w' := snd (handler js cfg env req w) in
  (topics w' = topics w
   \/ exists row tr r,
        topics w' = topics w ++ [row]
        /\ List.filter (selected env filter) (topics w) = []
        /\ forum env tr (CreatePrivatePost (discussion_title filter) (discussion_title filter) h)
           = Resolved r
        /\ status r = 200
        /\ get (data r) "topic_id" = Some (discourseTopicId row)
        /\ reference row = prop_text filter "reference"
        /\ referenceId row = prop_text filter "referenceId"
        /\ createdBy row = h /\ updatedBy row = h
        /\ fst (handler js cfg env req w) = Resolved tt
        /\ last (trace w') = Some (resp_send 200 (data r)))
  /\ (forall (i : nat) row, topics w !! i = Some row -> topics w' !! i = Some row)
  /\ (List.filter (selected env filter) (topics w) <> [] -> topics w' = topics w)
  /\ (forall R I row,
        filter = {[ "reference" := R; "referenceId" := I ]} ->
        In row (topics w) -> reference row = R -> referenceId row = I ->
        topics w' = topics w).
Proof.
  intros filter h w'.
  pose proof (handler_frame js cfg env req w) as F. cbv zeta in F. fold filter h w' in F.
  assert (List.filter (selected env filter) (topics w) <> [] -> topics w' = topics w) as Hit.
  { intros Hne. destruct F as [F|(row & tr & r & _ & Hnil & _)]; [exact F|contradiction]. }
  split; [exact F|]. split; [|split; [exact Hit|]].
  - intros i row Hi. destruct F as [->|(row' & tr & r & -> & _)]; [exact Hi|].
    by apply lookup_app_l_Some.
  - intros R I row Hf Hin HR HI. apply Hit.
    apply (filter_nonempty _ _ row Hin). rewrite Hf. by apply selected_exact.
Qed.

Lemma mapping_written_on_creation_only_witness :
  topics (snd (handler sample_js sample_config open_forum_env alice_request
                 (snd (handler sample_js sample_config open_forum_env alice_request
                         empty_world))))
  = topics (snd (handler sample_js sample_config open_forum_env alice_request empty_world)).
Proof.
  destruct (mapping_written_on_creation_only sample_js sample_config open_forum_env
              alice_request
              (snd (handler sample_js sample_config open_forum_env alice_request empty_world)))
    as (_ & _ & H & _).
  apply H. vm_compute. discriminate.
Defined.

(** C6, counterexample to the claim as stated.  After the first request
    has created the mapping of project 42, a second request for the same
    entity that carries one more filter key, [createdBy=bob], finds no row
    under its three-key [where], creates a second thread and writes a second
    mapping for the entity. *)
Lemma mapping_written_twice_for_entity :
  let w1 := snd (handler sample_js sample_config open_forum_env alice_request empty_world) in
  let w2 := snd (handler sample_js sample_config open_forum_env bob_request w1) in
  map entity_and_thread (topics w1) = [("project", "42", JNum 1)]
  /\ map entity_and_thread (topics w2)
     = [("project", "42", JNum 1); ("project", "42", JNum 2)]
  /\ count is_createPrivatePost (trace w2) = 2%nat.
Proof. repeat split. Qed.

(** *** Fetching an existing topic *)






(** A 403 on the retried fetch: the run ends with status 500 after two
    fetches and one grant. *)
Example handler_second_403_is_final :
  handler sample_js sample_config locked_env challenge_request challenge_world
  = (Resolved tt,
     {| topics := [challenge_mapping];
        trace := [topics_findAll {[ "reference" := "challenge"; "referenceId" := "7" ]};
                  discourse (GetTopic (JStr "t123") "alice");
                  referenceLookups_findOne "challenge";
                  discourse (GetUser "alice");
                  discourse (GrantAccess "alice" (JStr "t123"));
                  discourse (GetTopic (JStr "t123") "alice");
                  resp_send 500 failure_message] |}).
Proof. vm_compute. reflexivity. Qed.

(** *** Two runs in a row *)

Lemma last_snoc_send (tr : list event) ev code payload :
  last (tr ++ [ev]) = Some (resp_send code payload) -> ev = resp_send code payload.
Proof. rewrite last_snoc. congruence. Qed.

(** Closes a list of side conditions on explicit events. *)
Ltac each_event :=
  repeat first
    [ apply Forall_nil_2
    | apply Forall_cons_2; [simpl; intros; first [discriminate | reflexivity]|] ].

(** A run that finds a mapping writes nothing, creates nothing, and
    fetches only the thread of the first row found. *)
Lemma handler_on_hit js cfg env req w pgTopic others :
  let filter := parseFilter (query_filter req) in
  let h := authUser_handle req in
  let id := discourseTopicId pgTopic in
  let w' := snd (handler js cfg env req w) in
  falsy_prop filter "reference" = false ->
  falsy_prop filter "referenceId" = false ->
  List.filter (selected env filter) (topics w) = pgTopic :: others ->
  exists evs,
    trace w' = trace w ++ evs
    /\ topics w' = topics w
    /\ count is_createPrivatePost evs = 0%nat
    /\ count is_save evs = 0%nat
    /\ Forall (fun ev => is_getTopic ev = true -> ev = discourse (GetTopic id h)) evs
    /\ (database env (trace w) (topics_findAll filter) = Completed ->
        exists rest, evs = topics_findAll filter :: discourse (GetTopic id h) :: rest).
Proof.
  intros filter h id w' H1 H2 Hrow. subst w'. explore.
  fold filter h. rewrite H1, H2. simpl. rewrite Hrow. fold id.
  repeat branch; flatten_trace;
    (eexists; split; [reflexivity|]);
    (split; [reflexivity|]);
    (split; [reflexivity|]);
    (split; [reflexivity|]);
    (split; [each_event|]);
    first [ discriminate | intros _; eexists; reflexivity ].
Qed.

Lemma exact_filter_reference (R I : string) :
  ({[ "reference" := R; "referenceId" := I ]} : gmap string string) !! "reference" = Some R.
Proof. apply lookup_insert_eq. Qed.

Lemma exact_filter_referenceId (R I : string) :
  ({[ "reference" := R; "referenceId" := I ]} : gmap string string) !! "referenceId" = Some I.
Proof. rewrite lookup_insert_ne by discriminate. apply lookup_singleton_eq. Qed.

Lemma exact_filter_valid (R I : string) :
  R <> EmptyString -> I <> EmptyString ->
  falsy_prop {[ "reference" := R; "referenceId" := I ]} "reference" = false
  /\ falsy_prop {[ "reference" := R; "referenceId" := I ]} "referenceId" = false
  /\ prop_text {[ "reference" := R; "referenceId" := I ]} "reference" = R
  /\ prop_text {[ "reference" := R; "referenceId" := I ]} "referenceId" = I.
Proof.
  intros HR HI. unfold falsy_prop, prop_text.
  rewrite exact_filter_reference, exact_filter_referenceId. simpl.
  repeat split; by apply String.eqb_neq.
Qed.

(** A run that answers 200 leaves the entity bound to a thread: the one it
    found, or the one it created and recorded. *)
Lemma handler_success_binds js cfg env req w R I payload :
  let filter : gmap string string := {[ "reference" := R; "referenceId" := I ]} in
  let h := authUser_handle req in
  let w1 := snd (handler js cfg env req w) in
  parseFilter (query_filter req) = filter -> R <> EmptyString -> I <> EmptyString ->
  last (trace w1) = Some (resp_send 200 payload) ->
  exists pgTopic others,
    List.filter (selected env filter) (topics w1) = pgTopic :: others
    /\ ((topics w1 = topics w
         /\ List.filter (selected env filter) (topics w) = pgTopic :: others)
        \/ (topics w1 = topics w ++ [pgTopic]
            /\ List.filter (selected env filter) (topics w) = []
            /\ exists tr r,
                 forum env tr
                   (CreatePrivatePost (discussion_title filter) (discussion_title filter) h)
                 = Resolved r
                 /\ get (data r) "topic_id" = Some (discourseTopicId pgTopic)
                 /\ payload = data r)).
Proof.
  intros filter h w1 Hf HR HI. subst w1.
  destruct (exact_filter_valid R I HR HI) as (F1 & F2 & F3 & F4). fold filter in F1, F2, F3, F4.
  explore. rewrite Hf. fold h. rewrite F1, F2, ?F3, ?F4. simpl.
  repeat branch; intros Hlast; apply last_snoc_send in Hlast; try discriminate Hlast.
  all: try match goal with
           | H : List.filter _ (topics _) = ?t :: ?l |- _ =>
               exists t, l; split; [exact H|left; split; reflexivity]
           end.
  all: match goal with
       | H : List.filter _ (topics _) = [] |- _ =>
           eexists; exists []; rewrite List.filter_app, H; simpl
       end.
  all: match goal with
       | |- context [selected ?e ?f ?row] =>
           assert (selected e f row = true) as -> by (by apply selected_exact)
       end.
  all: split; [reflexivity|right; split; [reflexivity|split; [reflexivity|]]].
  all: do 2 eexists; split; [eassumption|split; [eassumption|congruence]].
Qed.

(** Two runs in a row.  Take a request whose filter is exactly a reference
    type and a reference id, and two runs of the handler one after the other.  If the
    first run answers 200, the mapping table then binds the entity to a
    thread, the one the first run found and fetched, or the one it created
    (the [topic_id] of the creation it returned to the caller); the second
    run finds that mapping, calls no [createPrivatePost], writes nothing,
    and the only thread it fetches is that same one, starting with the fetch
    straight after the lookup. *)
Lemma handler_idempotent js cfg env req w R I payload :
  let filter : gmap string string := {[ "reference" := R; "referenceId" := I ]} in
  let h := authUser_handle req in
  let w1 := snd (handler js cfg env req w) in
  let w2 := snd (handler js cfg env req w1) in
  parseFilter (query_filter req) = filter -> R <> EmptyString -> I <> EmptyString ->
  last (trace w1) = Some (resp_send 200 payload) ->
  exists pgTopic others evs,
    let fetches_only_this :=
      Forall (fun ev => is_getTopic ev = true ->
                        ev = discourse (GetTopic (discourseTopicId pgTopic) h)) in
    List.filter (selected env filter) (topics w1) = pgTopic :: others
    /\ ((topics w1 = topics w
         /\ List.filter (selected env filter) (topics w) = pgTopic :: others
         /\ exists evs1,
              trace w1 = trace w ++ evs1
              /\ count is_createPrivatePost evs1 = 0%nat
              /\ fetches_only_this evs1)
        \/ (topics w1 = topics w ++ [pgTopic]
            /\ List.filter (selected env filter) (topics w) = []
            /\ exists tr r,
                 forum env tr
                   (CreatePrivatePost (discussion_title filter) (discussion_title filter) h)
                 = Resolved r
                 /\ get (data r) "topic_id" = Some (discourseTopicId pgTopic)
                 /\ payload = data r))
    /\ trace w2 = trace w1 ++ evs
    /\ topics w2 = topics w1
    /\ count is_createPrivatePost evs = 0%nat
    /\ count is_save evs = 0%nat
    /\ fetches_only_this evs
    /\ (database env (trace w1) (topics_findAll filter) = Completed ->
        exists rest,
          evs = topics_findAll filter
                :: discourse (GetTopic (discourseTopicId pgTopic) h) :: rest).
Proof.
  intros filter h w1 w2 Hf HR HI Hlast.
  destruct (exact_filter_valid R I HR HI) as (F1 & F2 & _). fold filter in F1, F2.
  destruct (handler_success_binds js cfg env req w R I payload Hf HR HI Hlast)
    as (pgTopic & others & Hbound & Hfirst).
  fold filter h w1 in Hbound, Hfirst.
  pose proof (handler_on_hit js cfg env req w1 pgTopic others) as Hsecond.
  cbv zeta in Hsecond. rewrite Hf in Hsecond. fold filter h w2 in Hsecond.
  destruct (Hsecond F1 F2 Hbound) as (evs & Ht & Htop & Hc & Hs & Hall & Hstart).
  exists pgTopic, others, evs. cbv zeta.
  split; [exact Hbound|]. split; [|by repeat split].
  destruct Hfirst as [[Hsame Hhit]|Hmiss]; [left|right; exact Hmiss].
  split; [exact Hsame|]. split; [exact Hhit|].
  pose proof (handler_on_hit js cfg env req w pgTopic others) as Hrun1.
  cbv zeta in Hrun1. rewrite Hf in Hrun1. fold filter h w1 in Hrun1.
  destruct (Hrun1 F1 F2 Hhit) as (evs1 & Ht1 & _ & Hc1 & _ & Hall1 & _).
  by exists evs1.
Qed.

Example handler_idempotent_twice :
  let w1 := snd (handler sample_js sample_config open_forum_env alice_request empty_world) in
  let w2 := snd (handler sample_js sample_config open_forum_env alice_request w1) in
  exists pgTopic evs,
    discourseTopicId pgTopic = JNum 1
    /\ trace w2 = trace w1 ++ evs
    /\ count is_createPrivatePost evs = 0%nat
    /\ Forall (fun ev => is_getTopic ev = true ->
                         ev = discourse (GetTopic (discourseTopicId pgTopic) "alice")) evs.
Proof.
  intros w1 w2.
  assert (("project" : string) <> EmptyString) as HR by discriminate.
  assert (("42" : string) <> EmptyString) as HI by discriminate.
  destruct (handler_idempotent sample_js sample_config open_forum_env alice_request
              empty_world "project" "42" (JObj [("topic_id", JNum 1)]) eq_refl HR HI eq_refl)
    as (pgTopic & others & evs & Hbound & _ & Ht & _ & Hc & _ & Hall & _).
  exists pgTopic, evs. split; [|by repeat split].
  vm_compute in Hbound. by injection Hbound as <- _.
Qed.


(** *** Creating the topic of an entity *)

Lemma granting_body_grants js : grants js {| status := 200; data := granting_body |} = Some true.
Proof. reflexivity. Qed.



(** C3, the code at two requests in a row.  The first request for project
    42 creates thread 1 and answers with the creation body, which names
    the thread; the second finds the mapping, creates nothing and fetches
    thread 1, but what it sends is [topic.data] of a [topic] that is already
    the document [getTopic] resolved to ([response.data]): the second
    answer carries no thread and no thread id. *)
Lemma handler_second_answer_drops_thread :
  let w1 := snd (handler sample_js sample_config open_forum_env alice_request empty_world) in
  let w2 := snd (handler sample_js sample_config open_forum_env alice_request w1) in
  List.filter is_send (trace w1) = [resp_send 200 (JObj [("topic_id", JNum 1)])]
  /\ forum open_forum_env (trace w1 ++ [topics_findAll (parseFilter (query_filter alice_request))])
       (GetTopic (JNum 1) "alice")
     = Resolved {| status := 200; data := JObj [("id", JNum 1)] |}
  /\ drop (length (trace w1)) (trace w2)
     = [topics_findAll {[ "reference" := "project"; "referenceId" := "42" ]};
        discourse (GetTopic (JNum 1) "alice");
        resp_send 200 JUndefined].
Proof. repeat split. Qed.

(** ** Further properties *)

(** *** Splitting, joining and encoding strings *)

Lemma split_app sep a b :
  Js.split sep (a +:+ String sep b) = Js.split sep a ++ Js.split sep b.
Proof.
  induction a as [|c a IH]; simpl.
  - by rewrite Ascii.eqb_refl.
  - destruct (Ascii.eqb c sep); [by rewrite IH|].
    rewrite IH. pose proof (split_nonempty sep a).
    by destruct (Js.split sep a).
Qed.

Lemma percent_encoded_safe c : forallb uri_safe (String.list_ascii_of_string (percent_encoded c)) = true.
Proof. destruct c as [[] [] [] [] [] [] [] []]; reflexivity. Qed.

Lemma occurs_forallb P c s :
  forallb P (String.list_ascii_of_string s) = true -> P c = false -> occurs c s = false.
Proof.
  induction s as [|x s IH]; simpl; [reflexivity|].
  intros H Hc. apply andb_true_iff in H as [Hx H]. rewrite (IH H Hc), orb_false_r.
  destruct (Ascii.eqb_spec x c) as [->|]; [congruence|reflexivity].
Qed.

(** What [encodeURIComponent] returns holds no character outside the
    unreserved ones and ['%']. *)
Lemma encodeURIComponent_safe s c :
  uri_safe c = false -> occurs c (encodeURIComponent s) = false.
Proof.
  intros Hc. induction s as [|x s IH]; simpl; [reflexivity|].
  destruct (unreserved x) eqn:Hx.
  - simpl. rewrite IH, orb_false_r.
    destruct (Ascii.eqb_spec x c) as [->|]; [|reflexivity].
    unfold uri_safe in Hc. by rewrite Hx in Hc.
  - rewrite occurs_app, IH, orb_false_r.
    by apply (occurs_forallb uri_safe); [apply percent_encoded_safe|].
Qed.

Lemma encodeURIComponent_app a b :
  encodeURIComponent (a +:+ b) = encodeURIComponent a +:+ encodeURIComponent b.
Proof.
  induction a as [|x a IH]; simpl; [reflexivity|]. rewrite IH.
  destruct (unreserved x); [reflexivity|]. simpl. reflexivity.
Qed.

Lemma split_join sep parts :
  parts <> [] -> Forall (fun part => occurs sep part = false) parts ->
  Js.split sep (join (String sep EmptyString) parts) = parts.
Proof.
  induction parts as [|p [|q rest] IH]; intros Hne Hall.
  - contradiction.
  - simpl. apply split_free. by inversion Hall.
  - change (join (String sep EmptyString) (p :: q :: rest))
      with (p +:+ String sep (join (String sep EmptyString) (q :: rest))).
    rewrite split_app, IH; [|discriminate|by inversion Hall].
    rewrite split_free; [reflexivity|by inversion Hall].
Qed.

Lemma plain_pair_segment k v :
  plain k = true -> plain v = true ->
  occurs "&"%char (k +:+ "=" +:+ v) = false
  /\ Js.split "="%char (k +:+ "=" +:+ v) = [k; v].
Proof.
  unfold plain. intros Hk Hv.
  apply andb_true_iff in Hk as [Hk1 Hk2]. apply andb_true_iff in Hv as [Hv1 Hv2].
  apply negb_true_iff in Hk1, Hk2, Hv1, Hv2. split.
  - rewrite !occurs_app, Hk1, Hv1. reflexivity.
  - change (k +:+ "=" +:+ v) with (k +:+ String "="%char v).
    rewrite split_app. by rewrite !split_free.
Qed.

Lemma omap_split_segments (pairs : list (string * string)) :
  Forall (fun kv => plain (fst kv) = true /\ plain (snd kv) = true) pairs ->
  omap (fun value =>
          match Js.split "="%char value with
          | [k; v] => Some (k, v)
          | _ => None
          end)
       (map (fun kv => fst kv +:+ "=" +:+ snd kv) pairs)
  = pairs.
Proof.
  induction 1 as [|[k v] l [Hk Hv] _ IH]; [reflexivity|].
  cbn [map omap list_omap fst snd].
  destruct (plain_pair_segment k v Hk Hv) as [_ Hs]. rewrite Hs. by f_equal.
Qed.

(** Parsing inverts the encoding of pairs whose keys and values are free
    of ['&'] and ['=']. *)
Lemma well_formed_pairs_query_of pairs :
  Forall (fun kv => plain (fst kv) = true /\ plain (snd kv) = true) pairs ->
  well_formed_pairs (Some (query_of pairs)) = pairs.
Proof.
  intros Hall. unfold well_formed_pairs, query_of. simpl default.
  destruct pairs as [|kv pairs]; [reflexivity|].
  rewrite (split_join "&"%char).
  - by apply omap_split_segments.
  - discriminate.
  - apply Forall_fmap. eapply Forall_impl; [exact Hall|].
    intros [k v] [Hk Hv]. simpl. by apply plain_pair_segment.
Qed.

Lemma last_value_Some k v (pairs : list (string * string)) :
  last_value k pairs = Some v -> In (k, v) pairs.
Proof.
  unfold last_value. intros H.
  destruct (last (List.filter _ pairs)) as [[k' v']|] eqn:Hl; [|discriminate].
  simpl in H. injection H as ->.
  apply last_Some in Hl as [l' Hl].
  assert (In (k', v) (List.filter (fun kv => String.eqb (fst kv) k) pairs)) as Hin.
  { rewrite Hl. apply List.in_or_app. right. by left. }
  apply List.filter_In in Hin as [Hin Hk]. simpl in Hk.
  apply String.eqb_eq in Hk as ->. exact Hin.
Qed.

Lemma last_value_None k (pairs : list (string * string)) :
  last_value k pairs = None -> forall v, ~ In (k, v) pairs.
Proof.
  unfold last_value. intros H v Hin.
  destruct (last (List.filter _ pairs)) eqn:Hl; [discriminate|].
  apply last_None in Hl.
  assert (In (k, v) (List.filter (fun kv => String.eqb (fst kv) k) pairs)) as Hf.
  { apply List.filter_In. split; [exact Hin|]. simpl. apply String.eqb_refl. }
  rewrite Hl in Hf. destruct Hf.
Qed.

(** X1.  The filter string that lists pairs with distinct keys, none of
    them [__proto__], and with keys and values free of ['&'] and ['='],
    parses back to exactly those pairs; in particular
    [reference=R&referenceId=I] parses to the two-key filter of the
    entity. *)
Theorem parseFilter_round_trip (pairs : list (string * string)) :
  Forall (fun kv => plain (fst kv) = true /\ plain (snd kv) = true) pairs ->
  NoDup (pairs.*1) ->
  "__proto__" ∉ pairs.*1 ->
  parseFilter (Some (query_of pairs)) = list_to_map pairs.
Proof.
  intros Hplain Hnodup Hproto. apply map_eq. intros k.
  rewrite parseFilter_lookup, (well_formed_pairs_query_of _ Hplain).
  destruct (String.eqb_spec k "__proto__") as [->|Hk].
  - symmetry. by apply not_elem_of_list_to_map_1.
  - destruct (last_value k pairs) as [v|] eqn:Hl; symmetry.
    + apply elem_of_list_to_map_1; [exact Hnodup|].
      apply list_elem_of_In. by apply last_value_Some.
    + apply not_elem_of_list_to_map_1. intros Hin.
      apply list_elem_of_fmap in Hin as ([k' v] & -> & Hin). simpl in Hl.
      apply list_elem_of_In in Hin. by apply (last_value_None _ _ Hl v).
Qed.

Lemma parseFilter_round_trip_witness :
  parseFilter (Some "reference=project&referenceId=42")
  = {[ "reference" := "project"; "referenceId" := "42" ]}.
Proof.
  assert (NoDup ([("reference", "project"); ("referenceId", "42")].*1 : list string)) as Hd.
  { compute_done. }
  assert ("__proto__" ∉ ([("reference", "project"); ("referenceId", "42")].*1 : list string))
    as Hp.
  { compute_done. }
  exact (parseFilter_round_trip [("reference", "project"); ("referenceId", "42")]
           ltac:(repeat constructor) Hd Hp).
Defined.

Lemma split_segments_free c sep s :
  occurs c s = false -> Forall (fun seg => occurs c seg = false) (Js.split sep s).
Proof.
  induction s as [|x s IH]; simpl; intros H.
  - by constructor.
  - apply orb_false_iff in H as [Hx H]. specialize (IH H).
    destruct (Ascii.eqb x sep); [by constructor|].
    destruct (Js.split sep s) as [|part parts].
    + constructor; [|constructor]. simpl. by rewrite Hx.
    + inversion IH as [|? ? Hpart Hparts]; subst.
      constructor; [|exact Hparts]. simpl. by rewrite Hx, Hpart.
Qed.

(** X2.  A filter string without any ['='], the absent and the empty one
    included, parses to the empty filter, and the request is answered 400
    without any call. *)
Theorem handler_query_without_pairs js cfg env req w :
  occurs "="%char (default EmptyString (query_filter req)) = false ->
  parseFilter (query_filter req) = ∅
  /\ handler js cfg env req w = (Resolved tt, log (resp_send 400 validation_message) w).
Proof.
  intros Hfree.
  assert (parseFilter (query_filter req) = ∅) as E.
  { unfold parseFilter.
    assert (Forall (fun seg => occurs "="%char seg = false)
              (Js.split "&"%char (default EmptyString (query_filter req)))) as Hall.
    { by apply split_segments_free. }
    generalize (∅ : gmap string string) as acc.
    induction Hall as [|seg segs Hseg _ IH]; intros acc; [reflexivity|].
    simpl. rewrite (split_free _ _ Hseg). apply IH. }
  split; [exact E|].
  apply handler_falsy_filter. left. rewrite E. reflexivity.
Qed.

Lemma handler_query_without_pairs_witness :
  handler sample_js sample_config silent_env
    {| query_filter := Some "project&42";
       header_authorization := None;
       headers_authorization := None;
       authUser_handle := "alice" |}
    empty_world
  = (Resolved tt, log (resp_send 400 validation_message) empty_world).
Proof.
  apply (handler_query_without_pairs sample_js sample_config silent_env
           {| query_filter := Some "project&42";
              header_authorization := None;
              headers_authorization := None;
              authUser_handle := "alice" |}
           empty_world).
  reflexivity.
Defined.

(** *** How a run of the handler ends *)

(** X3.  The promise chain of the handler is never rejected: every failure
    is caught.  A run that settles has sent exactly one response, as its last
    act; a run that stays pending has sent none. *)
Theorem handler_settles js cfg env req w :
  let o := fst (handler js cfg env req w) in
  let w' := snd (handler js cfg env req w) in
  (forall e, o <> Rejected e)
  /\ (o = Resolved tt ->
      (exists code payload, last (trace w') = Some (resp_send code payload))
      /\ count is_send (trace w') = S (count is_send (trace w)))
  /\ (o = Pending -> count is_send (trace w') = count is_send (trace w)).
Proof.
  intros o w'. subst o w'. explore.
  repeat branch;
    (split; [intros ?; discriminate|]);
    (split; intros Ho; try discriminate Ho);
    rewrite ?count_app, ?last_snoc; unfold count; simpl;
    first [ split; [by do 2 eexists | lia] | lia ].
Qed.

Lemma handler_settles_witness :
  count is_send
    (trace (snd (handler sample_js sample_config scenario_A_env alice_request empty_world)))
  = 1%nat.
Proof.
  destruct (handler_settles sample_js sample_config scenario_A_env alice_request empty_world)
    as (_ & H & _).
  exact (proj2 (H eq_refl)).
Defined.

(** X4.  What a run answers is a 400 with the validation message, a 500
    with the one fixed failure message, or a 200: no error answer carries
    anything of what the database, the forum or the other services
    returned. *)
Theorem handler_answer_shapes js cfg env req w :
  let w' := snd (handler js cfg env req w) in
  fst (handler js cfg env req w) = Resolved tt ->
  exists code payload,
    last (trace w') = Some (resp_send code payload)
    /\ ((code = 400 /\ payload = validation_message)
        \/ (code = 500 /\ payload = failure_message)
        \/ code = 200).
Proof.
  intros w'. subst w'. explore.
  repeat branch; intros Ho; try discriminate Ho;
    do 2 eexists; (split; [unfold log; simpl; apply last_snoc|]); auto.
Qed.

Lemma handler_answer_shapes_witness :
  exists code payload,
    last (trace (snd (handler sample_js sample_config locked_env challenge_request
                        challenge_world)))
    = Some (resp_send code payload)
    /\ ((code = 400 /\ payload = validation_message)
        \/ (code = 500 /\ payload = failure_message)
        \/ code = 200).
Proof.
  apply (handler_answer_shapes sample_js sample_config locked_env challenge_request
           challenge_world).
  reflexivity.
Defined.

Lemma settle_pending t r : settle t r = Pending -> r = Silent /\ t = None.
Proof.
  destruct r as [s b| |]; simpl; try discriminate.
  - destruct (validateStatus s); discriminate.
  - destruct t; [discriminate|done].
Qed.

(** X5.  A run that stays without an answer has stopped at its last call,
    and that call is the cause: a query or an insert on [db.topics], a
    forum call or an [axios.get] without timeout whose promise never
    settles, or the lookup in [referenceLookups], rejected or never settled
    (nothing handles its rejection).  The cause is read with the history the
    call was made with. *)
Theorem handler_pending_causes js cfg env req w :
  fst (handler js cfg env req w) = Pending ->
  exists tr ev,
    trace (snd (handler js cfg env req w)) = tr ++ [ev]
    /\ (exists evs, tr = trace w ++ evs)
    /\ leaves_pending env tr ev.
Proof.
  explore.
  repeat branch; intros Ho; try discriminate Ho;
    repeat match goal with
           | H : settle _ _ = Pending |- _ => apply settle_pending in H as [? ?]
           end;
    unfold log in *; cbn [trace topics fst snd] in *;
    (eexists _, _; split; [reflexivity|]; split;
       [ rewrite <- ?app_assoc;
         first [ eexists; reflexivity | exists []; symmetry; apply app_nil_r ]
       | cbn [leaves_pending];
         first [ eassumption
               | left; eassumption
               | right; eexists; eassumption
               | split; eassumption
               | exfalso; discriminate ] ]).
Qed.

Lemma handler_pending_causes_witness :
  exists tr ev,
    trace (snd (handler sample_js sample_config stalled_lookup_env alice_request empty_world))
    = tr ++ [ev]
    /\ (exists evs, tr = trace empty_world ++ evs)
    /\ leaves_pending stalled_lookup_env tr ev.
Proof.
  apply (handler_pending_causes sample_js sample_config stalled_lookup_env alice_request
           empty_world).
  reflexivity.
Defined.

(** X6.  When no mapping is found and the query on [referenceLookups] is
    rejected, the entitlement check never settles and the request is never
    answered: the run stops after the two lookups. *)
Theorem handler_hangs_on_rejected_route_lookup js cfg env req w e :
  let filter := parseFilter (query_filter req) in
  let w0 := log (topics_findAll filter) w in
  falsy_prop filter "reference" = false ->
  falsy_prop filter "referenceId" = false ->
  database env (trace w) (topics_findAll filter) = Completed ->
  List.filter (selected env filter) (topics w) = [] ->
  route_lookup env (trace w0) (prop_text filter "reference") = Rejected e ->
  handler js cfg env req w
  = (Pending, log (referenceLookups_findOne (prop_text filter "reference")) w0).
Proof.
  intros filter w0 H1 H2 Hdb Hmiss Hroute. explore.
  fold filter. rewrite H1, H2. simpl. rewrite Hdb, Hmiss. simpl.
  fold w0 in Hroute. unfold w0, log in Hroute. simpl in Hroute. rewrite Hroute. reflexivity.
Qed.

Lemma handler_hangs_on_rejected_route_lookup_witness :
  handler sample_js sample_config broken_routes_env alice_request empty_world
  = (Pending,
     log (referenceLookups_findOne "project")
       (log (topics_findAll (parseFilter (query_filter alice_request))) empty_world)).
Proof.
  apply (handler_hangs_on_rejected_route_lookup sample_js sample_config broken_routes_env
           alice_request empty_world DatabaseError); reflexivity.
Defined.

(** The entitlement check calls nothing at the forum and writes
    nothing. *)
Lemma userHasAccessToEntity_frame js env authToken ref refId w :
  let w' := snd (userHasAccessToEntity js env authToken ref refId w) in
  topics w' = topics w
  /\ count is_discourse (trace w') = count is_discourse (trace w).
Proof.
  intros w'. subst w'. unfold userHasAccessToEntity. unfold_promises.
  repeat branch; (split; [reflexivity|]); rewrite ?count_app; unfold count; simpl; lia.
Qed.

(** X7.  When no mapping is found and the entitlement check resolves to
    [false], the request is answered 500 straight after the check: the
    forum has not been called at all, no user looked up or created, no
    thread created, and nothing is written. *)
Theorem handler_denied_calls_nothing js cfg env req w w1 :
  let filter := parseFilter (query_filter req) in
  let w0 := log (topics_findAll filter) w in
  falsy_prop filter "reference" = false ->
  falsy_prop filter "referenceId" = false ->
  database env (trace w) (topics_findAll filter) = Completed ->
  List.filter (selected env filter) (topics w) = [] ->
  userHasAccessToEntity js env (header_authorization req)
    (prop_text filter "reference") (prop_text filter "referenceId") w0
  = (Resolved false, w1) ->
  handler js cfg env req w = (Resolved tt, log (resp_send 500 failure_message) w1)
  /\ topics w1 = topics w
  /\ count is_discourse (trace w1) = count is_discourse (trace w).
Proof.
  intros filter w0 H1 H2 Hdb Hmiss Hcheck.
  pose proof (userHasAccessToEntity_frame js env (header_authorization req)
                (prop_text filter "reference") (prop_text filter "referenceId") w0) as F.
  cbv zeta in F. rewrite Hcheck in F. simpl in F. destruct F as [Ft Fc].
  split; [|split; [exact Ft|]].
  - unfold handler, createTopic, checkAccessAndProvision. unfold_promises.
    fold filter. rewrite H1, H2. simpl. rewrite Hdb, Hmiss. fold w0. rewrite Hcheck.
    reflexivity.
  - rewrite Fc. rewrite count_app. unfold count. simpl. lia.
Qed.

Lemma handler_denied_calls_nothing_witness :
  handler sample_js sample_config denying_env alice_request empty_world
  = (Resolved tt,
     {| topics := [];
        trace := [topics_findAll (parseFilter (query_filter alice_request));
                  referenceLookups_findOne "project";
                  axios_get "https://api.example.org/projects/42/access"
                    (authorization_config None);
                  resp_send 500 failure_message] |}).
Proof.
  destruct (handler_denied_calls_nothing sample_js sample_config denying_env alice_request
              empty_world
              (snd (userHasAccessToEntity sample_js denying_env None "project" "42"
                      (log (topics_findAll (parseFilter (query_filter alice_request)))
                         empty_world)))
              eq_refl eq_refl eq_refl eq_refl eq_refl) as [E _].
  rewrite E. reflexivity.
Defined.

(** X8.  When the fetch of a mapped thread fails with anything but a 403
    response (another status, a transport error, an error without a
    response), the request is answered 500 at once: entitlement is not
    checked again, access is not granted and the fetch is not retried. *)
Theorem handler_fetch_failure_is_final js cfg env req w pgTopic others e :
  let filter := parseFilter (query_filter req) in
  let h := authUser_handle req in
  let id := discourseTopicId pgTopic in
  let w0 := log (topics_findAll filter) w in
  falsy_prop filter "reference" = false ->
  falsy_prop filter "referenceId" = false ->
  database env (trace w) (topics_findAll filter) = Completed ->
  List.filter (selected env filter) (topics w) = pgTopic :: others ->
  forum env (trace w0) (GetTopic id h) = Rejected e ->
  error_is_403 e <> Some true ->
  handler js cfg env req w
  = (Resolved tt, log (resp_send 500 failure_message) (log (discourse (GetTopic id h)) w0)).
Proof.
  intros filter h id w0 H1 H2 Hdb Hrow Hget Hnot.
  unfold handler, fetchTopic. unfold_promises.
  fold filter h. rewrite H1, H2. simpl. rewrite Hdb, Hrow. fold id w0. rewrite Hget. simpl.
  destruct (error_is_403 e) as [[|]|]; [contradiction|reflexivity|reflexivity].
Qed.

Lemma handler_fetch_failure_is_final_witness :
  handler sample_js sample_config missing_thread_env challenge_request challenge_world
  = (Resolved tt,
     {| topics := [challenge_mapping];
        trace := [topics_findAll (parseFilter (query_filter challenge_request));
                  discourse (GetTopic (JStr "t123") "alice");
                  resp_send 500 failure_message] |}).
Proof.
  apply (handler_fetch_failure_is_final sample_js sample_config missing_thread_env
           challenge_request challenge_world challenge_mapping []
           (AxiosFailure (HttpError {| status := 404; data := JNull |})));
    try reflexivity.
  discriminate.
Defined.

(** *** What a run calls *)

(** X9.  One request costs at most one mapping lookup, one entitlement
    lookup, two [axios.get] (the authorization endpoint and the member
    service), one user creation, one thread creation and one insert; with
    the forum calls and the answer a run makes at most eleven calls. *)
Theorem handler_call_budget js cfg env req w :
  let w' := snd (handler js cfg env req w) in
  (count is_findAll (trace w') <= count is_findAll (trace w) + 1)%nat
  /\ (count is_findOne (trace w') <= count is_findOne (trace w) + 1)%nat
  /\ (count is_axios_get (trace w') <= count is_axios_get (trace w) + 2)%nat
  /\ (count is_createUser (trace w') <= count is_createUser (trace w) + 1)%nat
  /\ (count is_createPrivatePost (trace w') <= count is_createPrivatePost (trace w) + 1)%nat
  /\ (count is_save (trace w') <= count is_save (trace w) + 1)%nat
  /\ (count is_discourse (trace w') <= count is_discourse (trace w) + 5)%nat
  /\ (length (trace w') <= length (trace w) + 11)%nat.
Proof.
  intros w'. subst w'. explore.
  repeat branch; rewrite ?count_app, ?length_app; unfold count; simpl; lia.
Qed.

(** X10.  A run either creates a thread or fetches one, never both; it
    grants access only after a fetch, and attempts an insert only after a
    creation. *)
Theorem handler_creates_or_fetches js cfg env req w :
  exists evs,
    trace (snd (handler js cfg env req w)) = trace w ++ evs
    /\ (count is_createPrivatePost evs = 0%nat
        \/ (count is_getTopic evs = 0 /\ count is_grantAccess evs = 0)%nat)
    /\ (count is_grantAccess evs <= count is_getTopic evs)%nat
    /\ (count is_save evs <= count is_createPrivatePost evs)%nat.
Proof.
  explore.
  repeat branch; flatten_trace;
    (eexists; split; [first [reflexivity | symmetry; apply app_nil_r]|]);
    unfold count; simpl;
    (split; [first [left; reflexivity | right; split; reflexivity]|split; lia]).
Qed.

(** X11.  Every call of a run concerns the request at hand: the lookup uses
    the parsed filter, the forum calls name the actor's handle, a created
    thread has the title derived from the filter as both title and body and
    the actor as its only recipient, a created user gets the configured
    placeholder password, the member lookup asks for the actor, and an
    inserted row is the entity's, signed by the actor. *)
Theorem handler_calls_concern_request js cfg env req w :
  exists evs,
    trace (snd (handler js cfg env req w)) = trace w ++ evs
    /\ Forall (concerns_request cfg req) evs.
Proof.
  explore.
  repeat branch; flatten_trace;
    (eexists; split; [first [reflexivity | symmetry; apply app_nil_r]|]);
    repeat first
      [ apply Forall_nil_2
      | apply Forall_cons_2; [simpl; auto 7|] ].
Qed.

(** X12.  Whenever a run attempts the insert, it has created exactly one
    thread, and created it before the insert; what follows depends on what
    becomes of that very insert: carried out, the row is appended and the run answers 200;
    rejected, the table is unchanged and the run answers 500, the thread
    already existing at the forum; never acknowledged, the insert is the
    last act of the run and the request stays without an answer. *)
Theorem handler_insert_outcomes js cfg env req w :
  let o := fst (handler js cfg env req w) in
  let w' := snd (handler js cfg env req w) in
  exists evs,
    trace w' = trace w ++ evs
    /\ (count is_save evs = 1%nat ->
        count is_createPrivatePost evs = 1%nat
        /\ exists before row after,
             evs = before ++ topics_save row :: after
             /\ count is_createPrivatePost before = 1%nat
             /\ match database env (trace w ++ before) (topics_save row) with
                | Completed =>
                    topics w' = topics w ++ [row]
                    /\ exists payload, after = [resp_send 200 payload]
                | Failed =>
                    topics w' = topics w /\ after = [resp_send 500 failure_message]
                | Unanswered =>
                    topics w' = topics w /\ after = [] /\ o = Pending
                end).
Proof.
  intros o w'. subst o w'. explore.
  repeat branch; flatten_trace;
    (eexists; split; [first [reflexivity | symmetry; apply app_nil_r]|]);
    unfold count; simpl; intros Hs; try discriminate Hs;
    (split; [reflexivity|]);
    match goal with
    | H : database _ _ (topics_save _) = _ |- _ =>
        unfold log in H; simpl in H; rewrite <- ?app_assoc in H; simpl in H;
        match type of H with
        | database _ (_ ++ ?pre) (topics_save ?row) = _ =>
            exists pre, row; eexists; split; [reflexivity|];
            split; [reflexivity|]; rewrite H;
            repeat first [reflexivity | split | eexists]
        end
    end.
Qed.

Lemma handler_insert_outcomes_witness :
  fst (handler sample_js sample_config lost_insert_env alice_request empty_world) = Pending.
Proof.
  destruct (handler_insert_outcomes sample_js sample_config lost_insert_env alice_request
              empty_world) as (evs & Htr & H).
  change (trace empty_world ++ evs) with evs in Htr.
  destruct H as (_ & before & row & after & _ & _ & Hcase).
  - rewrite <- Htr. reflexivity.
  - exact (proj2 (proj2 Hcase)).
Defined.

(** *** The other methods of the forum client *)

Lemma append_empty (a : string) : a +:+ EmptyString = a.
Proof.
  induction a as [|x a IH]; [reflexivity|].
  change (String x (a +:+ EmptyString) = String x a). by rewrite IH.
Qed.

Lemma ampersand_unsafe : uri_safe "&"%char = false.
Proof. reflexivity. Qed.

Lemma equals_unsafe : uri_safe "="%char = false.
Proof. reflexivity. Qed.

(** X13.  The form body of [createPost], in both revisions, is the
    ['&']-joined list of [topic_id], [raw] and, for a truthy [responseTo],
    [reply_to_post_number]; provided the two identifiers hold no ['&'], it
    splits back into exactly these fields, whatever the post says: the
    encoded post holds neither ['&'] nor ['='], so the text of a post cannot
    add or change a field. *)
Theorem createPost_fields js cfg isDiscourseAdmin username post topicId responseTo id reply :
  let fields :=
    ["topic_id=" +:+ id; "raw=" +:+ encodeURIComponent post]
    ++ (if truthy responseTo then ["reply_to_post_number=" +:+ reply] else []) in
  ToString js topicId = Some id ->
  occurs "&"%char id = false ->
  (truthy responseTo = true ->
   ToString js responseTo = Some reply /\ occurs "&"%char reply = false) ->
  exists r r',
    Discourse.createPost js cfg isDiscourseAdmin username post topicId responseTo = Some r
    /\ DiscourseEarly.createPost js username post topicId responseTo = Some r'
    /\ body r = JStr (join "&" fields)
    /\ body r' = body r
    /\ Js.split "&"%char (join "&" fields) = fields
    /\ Js.split "="%char ("raw=" +:+ encodeURIComponent post) = ["raw"; encodeURIComponent post].
Proof.
  intros fields Hid Hfree Hreply. subst fields.
  assert (occurs "&"%char (encodeURIComponent post) = false) as Hraw
    by apply encodeURIComponent_safe, ampersand_unsafe.
  assert (occurs "="%char (encodeURIComponent post) = false) as Hraw'
    by apply encodeURIComponent_safe, equals_unsafe.
  assert (Js.split "="%char ("raw=" +:+ encodeURIComponent post)
          = ["raw"; encodeURIComponent post]) as Hsplit.
  { change ("raw=" +:+ encodeURIComponent post)
      with ("raw" +:+ String "="%char (encodeURIComponent post)).
    rewrite split_app. by rewrite (split_free _ _ Hraw'). }
  destruct (truthy responseTo) eqn:Ht.
  - destruct (Hreply eq_refl) as [Hr Hr'].
    unfold Discourse.createPost, DiscourseEarly.createPost. rewrite Hid, Ht, Hr.
    do 2 eexists. split; [reflexivity|]. split; [reflexivity|].
    split; [cbn [body app join]; f_equal; rewrite !append_assoc; reflexivity|].
    split; [reflexivity|]. split; [|exact Hsplit]. cbn [app].
    apply (split_join "&"%char); [discriminate|].
    repeat constructor; rewrite occurs_app; by rewrite ?Hfree, ?Hraw, ?Hr'.
  - unfold Discourse.createPost, DiscourseEarly.createPost. rewrite Hid, Ht.
    do 2 eexists. split; [reflexivity|]. split; [reflexivity|].
    split; [cbn [body app join]; f_equal; rewrite !append_assoc; reflexivity|].
    split; [reflexivity|]. split; [|exact Hsplit]. cbn [app].
    apply (split_join "&"%char); [discriminate|].
    repeat constructor; rewrite occurs_app; by rewrite ?Hfree, ?Hraw.
Qed.

Lemma createPost_fields_witness :
  exists r,
    Discourse.createPost sample_js sample_config (fun _ => false) "alice"
      "a&topic_id=9" (JNum 5) (JNum 0) = Some r
    /\ body r = JStr "topic_id=5&raw=a%26topic_id%3D9".
Proof.
  destruct (createPost_fields sample_js sample_config (fun _ => false) "alice"
              "a&topic_id=9" (JNum 5) (JNum 0) "5" EmptyString eq_refl eq_refl)
    as (r & r' & E & _ & Hb & _).
  - discriminate.
  - exists r. split; [exact E|exact Hb].
Defined.

Lemma postIdsFilter_join js separator postIds texts :
  mapM (ToString js) postIds = Some texts ->
  Discourse.postIdsFilter js separator postIds
  = Some match texts with
         | [] => EmptyString
         | _ => separator +:+ join "&" (map (fun t => "post_ids%5B%5D=" +:+ t) texts)
         end
  /\ DiscourseEarly.postIdsFilter js separator postIds
     = Discourse.postIdsFilter js separator postIds.
Proof.
  revert separator texts.
  induction postIds as [|postId rest IH]; intros separator texts H.
  - simpl in H. injection H as <-. split; reflexivity.
  - cbn [mapM] in H. destruct (ToString js postId) as [t|] eqn:Ht; [|discriminate H].
    cbn [mbind option_bind] in H.
    destruct (mapM (ToString js) rest) as [ts|] eqn:Hts; [|discriminate H].
    cbn in H. injection H as <-.
    destruct (IH "&" ts eq_refl) as [IH1 IH2].
    cbn [Discourse.postIdsFilter DiscourseEarly.postIdsFilter].
    rewrite IH2, IH1, Ht. cbn [mbind option_bind].
    change (encodeURIComponent "post_ids[]") with "post_ids%5B%5D".
    split; [|reflexivity]. f_equal.
    destruct ts as [|t' ts]; cbn [map join].
    + rewrite append_empty. reflexivity.
    + rewrite ?append_assoc. reflexivity.
Qed.

(** X14.  [getPosts] asks for the posts with one [post_ids%5B%5D=<id>]
    pair per identifier, in order, joined by ['&'] with no leading or
    trailing separator, and with an empty query for an empty list; the two
    revisions build the same address, and the earlier one does not use its
    [username] argument at all. *)
Theorem getPosts_query js cfg isDiscourseAdmin username topicId postIds id texts :
  ToString js topicId = Some id ->
  mapM (ToString js) postIds = Some texts ->
  let address :=
    "/t/" +:+ id +:+ "/posts.json?"
    +:+ join "&" (map (fun t => "post_ids%5B%5D=" +:+ t) texts) in
  Discourse.getPosts js cfg isDiscourseAdmin username topicId postIds
  = Some {| method := GET; url := address; body := JUndefined;
            params := [("api_username",
                        if isDiscourseAdmin username then discourseSystemUsername cfg
                        else username)] |}
  /\ (forall other,
        DiscourseEarly.getPosts js other topicId postIds
        = Some {| method := GET; url := address; body := JUndefined; params := [] |})
  /\ (Forall (fun t => occurs "&"%char t = false) texts -> texts <> [] ->
      Js.split "&"%char (join "&" (map (fun t => "post_ids%5B%5D=" +:+ t) texts))
      = map (fun t => "post_ids%5B%5D=" +:+ t) texts).
Proof.
  intros Hid Hts address.
  destruct (postIdsFilter_join js EmptyString postIds texts Hts) as [F1 F2].
  assert (Discourse.postIdsFilter js EmptyString postIds
          = Some (join "&" (map (fun t => "post_ids%5B%5D=" +:+ t) texts))) as F.
  { rewrite F1. by destruct texts. }
  split; [|split].
  - unfold Discourse.getPosts. rewrite F, Hid. reflexivity.
  - intros other. unfold DiscourseEarly.getPosts. rewrite F2, F, Hid. reflexivity.
  - intros Hfree Hne. apply (split_join "&"%char).
    + by destruct texts.
    + apply Forall_fmap. eapply Forall_impl; [exact Hfree|].
      intros t Ht. simpl. exact Ht.
Qed.

Lemma getPosts_query_witness :
  Discourse.getPosts sample_js sample_config (fun _ => false) "alice" (JNum 5)
    [JNum 1; JNum 2]
  = Some {| method := GET;
            url := "/t/5/posts.json?post_ids%5B%5D=1&post_ids%5B%5D=2";
            body := JUndefined;
            params := [("api_username", "alice")] |}.
Proof.
  destruct (getPosts_query sample_js sample_config (fun _ => false) "alice" (JNum 5)
              [JNum 1; JNum 2] "5" ["1"; "2"] eq_refl eq_refl) as [E _].
  exact E.
Defined.

Lemma timing_text js postId t :
  ToString js postId = Some t ->
  Discourse.timing js postId = Some ("timings%5B" +:+ encodeURIComponent t +:+ "%5D=1000")
  /\ DiscourseEarly.timing js postId = Discourse.timing js postId.
Proof.
  intros Ht. unfold Discourse.timing, DiscourseEarly.timing. rewrite Ht.
  split; [|reflexivity]. cbn [mbind option_bind]. f_equal.
  change ("timings[" +:+ t +:+ "]") with ("timings[" +:+ (t +:+ "]")).
  rewrite !encodeURIComponent_app.
  change (encodeURIComponent "timings[") with "timings%5B".
  change (encodeURIComponent "]") with "%5D".
  rewrite !append_assoc. reflexivity.
Qed.

Lemma mapM_timing js postIds texts :
  mapM (ToString js) postIds = Some texts ->
  mapM (Discourse.timing js) postIds
  = Some (map (fun t => "timings%5B" +:+ encodeURIComponent t +:+ "%5D=1000") texts)
  /\ mapM (DiscourseEarly.timing js) postIds = mapM (Discourse.timing js) postIds
  /\ length texts = length postIds.
Proof.
  revert texts. induction postIds as [|postId rest IH]; intros texts H.
  - simpl in H. injection H as <-. by repeat split.
  - cbn [mapM] in H. destruct (ToString js postId) as [t|] eqn:Ht; [|discriminate H].
    cbn [mbind option_bind] in H.
    destruct (mapM (ToString js) rest) as [ts|] eqn:Hts; [|discriminate H].
    cbn in H. injection H as <-.
    destruct (IH ts eq_refl) as (IH1 & IH2 & IH3).
    destruct (timing_text js postId t Ht) as [T1 T2].
    cbn [mapM]. rewrite T2, IH2, T1, IH1. cbn. by rewrite IH3.
Qed.

(** X15.  [markTopicPostsRead], in both revisions, posts the ['&']-joined
    list of [topic_id], [topic_time], which carries the topic id as well,
    and one [timings%5B<post id>%5D=1000] per post; provided the topic id
    holds no ['&'], the body splits back into exactly two fields more than
    there are posts. *)
Theorem markTopicPostsRead_body js username topicId postIds id texts :
  let fields :=
    ["topic_id=" +:+ id; "topic_time=" +:+ id]
    ++ map (fun t => "timings%5B" +:+ encodeURIComponent t +:+ "%5D=1000") texts in
  ToString js topicId = Some id ->
  mapM (ToString js) postIds = Some texts ->
  Discourse.markTopicPostsRead js username topicId postIds
  = Some {| method := POST; url := "/topics/timings.json";
            body := JStr (join "&" fields);
            params := [("api_username", username)] |}
  /\ DiscourseEarly.markTopicPostsRead js username topicId postIds
     = Some {| method := POST; url := "/topics/timings.json?api_username=" +:+ username;
               body := JStr (join "&" fields);
               params := [] |}
  /\ length fields = (2 + length postIds)%nat
  /\ (occurs "&"%char id = false -> Js.split "&"%char (join "&" fields) = fields).
Proof.
  intros fields Hid Hts.
  destruct (mapM_timing js postIds texts Hts) as (M1 & M2 & M3).
  split; [|split; [|split]].
  - unfold Discourse.markTopicPostsRead. rewrite Hid. cbn [mbind option_bind].
    rewrite M1. reflexivity.
  - unfold DiscourseEarly.markTopicPostsRead. rewrite Hid. cbn [mbind option_bind].
    rewrite M2, M1. reflexivity.
  - unfold fields. rewrite length_app, length_map, M3. reflexivity.
  - intros Hfree. apply (split_join "&"%char); [discriminate|].
    unfold fields. apply Forall_app. split.
    + repeat constructor; rewrite occurs_app; by rewrite Hfree.
    + apply Forall_fmap, Forall_true. intros t. simpl.
      rewrite !occurs_app.
      by rewrite (encodeURIComponent_safe t _ ampersand_unsafe).
Qed.

Lemma markTopicPostsRead_body_witness :
  Discourse.markTopicPostsRead sample_js "alice" (JNum 5)
    [JNum 1; JNum 2]
  = Some {| method := POST; url := "/topics/timings.json";
            body := JStr "topic_id=5&topic_time=5&timings%5B1%5D=1000&timings%5B2%5D=1000";
            params := [("api_username", "alice")] |}.
Proof.
  destruct (markTopicPostsRead_body sample_js "alice" (JNum 5)
              [JNum 1; JNum 2] "5" ["1"; "2"] eq_refl eq_refl) as [E _].
  exact E.
Defined.

(** The query that [getPosts] writes into its URL names no user. *)
Lemma post_ids_name_nobody texts :
  values_of "api_username"
    (map query_pair (map (fun t => "post_ids%5B%5D=" +:+ t) texts)) = [].
Proof. induction texts as [|t texts IH]; [reflexivity|exact IH]. Qed.

Lemma getPosts_url_names_nobody id texts :
  occurs "?"%char id = false ->
  Forall (fun t => occurs "&"%char t = false) texts ->
  values_of "api_username"
    (url_query ("/t/" +:+ id +:+ "/posts.json?"
                +:+ join "&" (map (fun t => "post_ids%5B%5D=" +:+ t) texts))) = [].
Proof.
  intros Hid Hts. unfold url_query.
  rewrite (text_after_app "?" "/t/") by reflexivity.
  rewrite (text_after_app "?" id) by exact Hid.
  change (text_after "?" ("/posts.json?" +:+ ?q)) with (Some q).
  cbv beta iota. destruct texts as [|t texts]; [reflexivity|].
  rewrite (split_join "&"%char); [apply post_ids_name_nobody|discriminate|].
  apply Forall_fmap. eapply Forall_impl; [exact Hts|].
  intros x Hx. simpl. by rewrite occurs_app, Hx.
Qed.

(** X16.  In the later revision a forum administrator acts as the system
    user and anybody else under the own name when fetching a topic, posting
    a reply, listing posts, or owning a new private post;
    [markTopicPostsRead] makes no such substitution and names the given user
    even when it is an administrator.  That name is the [api_username] of
    the merged params, and it is the only one the request carries: always
    for the methods with a fixed URL, and for the two that write
    identifiers into the URL when the topic id holds no ['?'] and the post
    ids no ['&']. *)
Theorem acting_user_substitution js cfg (isDiscourseAdmin : string -> bool) username r :
  let acting := if isDiscourseAdmin username then discourseSystemUsername cfg else username in
  (forall topicId,
     Discourse.getTopic js cfg isDiscourseAdmin topicId username = Some r ->
     merged_param cfg r "api_username" = Some acting
     /\ (forall id, ToString js topicId = Some id -> occurs "?"%char id = false ->
         api_usernames cfg r = [acting]))
  /\ (forall post topicId responseTo,
        Discourse.createPost js cfg isDiscourseAdmin username post topicId responseTo = Some r ->
        merged_param cfg r "api_username" = Some acting
        /\ api_usernames cfg r = [acting])
  /\ (forall topicId postIds,
        Discourse.getPosts js cfg isDiscourseAdmin username topicId postIds = Some r ->
        merged_param cfg r "api_username" = Some acting
        /\ (forall id texts,
              ToString js topicId = Some id -> occurs "?"%char id = false ->
              mapM (ToString js) postIds = Some texts ->
              Forall (fun t => occurs "&"%char t = false) texts ->
              api_usernames cfg r = [acting]))
  /\ (forall title post users,
        username <> EmptyString ->
        merged_param cfg
          (Discourse.createPrivatePost cfg isDiscourseAdmin title post users (Some username))
          "api_username"
        = Some acting
        /\ api_usernames cfg
             (Discourse.createPrivatePost cfg isDiscourseAdmin title post users (Some username))
           = [acting])
  /\ (forall topicId postIds,
        Discourse.markTopicPostsRead js username topicId postIds = Some r ->
        merged_param cfg r "api_username" = Some username
        /\ api_usernames cfg r = [username]).
Proof.
  intros acting. subst acting.
  split; [|split; [|split; [|split]]].
  - intros topicId H. unfold Discourse.getTopic in H.
    destruct (ToString js topicId) as [id|]; simplify_eq/=.
    split; [reflexivity|]. intros ? [= <-] Hfree.
    rewrite api_usernames_plain; [reflexivity|].
    cbn [url]. by rewrite !occurs_app, Hfree.
  - intros post topicId responseTo H. unfold Discourse.createPost in H.
    destruct (ToString js topicId); [|discriminate H]. cbn [mbind option_bind] in H.
    destruct (truthy responseTo); [destruct (ToString js responseTo)|];
      simplify_eq/=; split; reflexivity.
  - intros topicId postIds H. unfold Discourse.getPosts in H.
    destruct (Discourse.postIdsFilter js EmptyString postIds) as [filter|] eqn:Hf;
      [|discriminate H].
    cbn [mbind option_bind] in H.
    destruct (ToString js topicId) as [id|]; simplify_eq/=.
    split; [reflexivity|]. intros ? texts [= <-] Hfree Hts Hamp.
    destruct (postIdsFilter_join js EmptyString postIds texts Hts) as [F _].
    rewrite F in Hf. injection Hf as <-.
    unfold api_usernames. cbn [url].
    replace (match texts with
             | [] => EmptyString
             | _ => EmptyString +:+ join "&" (map (fun t => "post_ids%5B%5D=" +:+ t) texts)
             end)
      with (join "&" (map (fun t => "post_ids%5B%5D=" +:+ t) texts))
      by (by destruct texts).
    rewrite (getPosts_url_names_nobody id texts Hfree Hamp). reflexivity.
  - intros title post users Hne.
    assert (merged_param cfg
              (Discourse.createPrivatePost cfg isDiscourseAdmin title post users (Some username))
              "api_username"
            = Some (if isDiscourseAdmin username then discourseSystemUsername cfg
                    else username)) as Hm.
    { unfold merged_param. simpl.
      destruct (String.eqb_spec username EmptyString); [contradiction|]. simpl.
      by destruct (isDiscourseAdmin username). }
    split; [exact Hm|].
    rewrite api_usernames_plain; [|reflexivity]. by rewrite Hm.
  - intros topicId postIds H. unfold Discourse.markTopicPostsRead in H.
    destruct (ToString js topicId); [|discriminate H]. cbn [mbind option_bind] in H.
    destruct (mapM (Discourse.timing js) postIds); simplify_eq/=. split; reflexivity.
Qed.

Lemma acting_user_substitution_witness :
  api_usernames sample_config
    (Discourse.createPrivatePost sample_config (fun u => String.eqb u "admin")
       "title" "post" "alice" (Some "admin"))
  = ["system"].
Proof.
  assert (("admin" : string) <> EmptyString) as Hne by discriminate.
  destruct (acting_user_substitution sample_js sample_config (fun u => String.eqb u "admin")
              "admin" (Discourse.getUser "admin")) as (_ & _ & _ & H & _).
  exact (proj2 (H "title" "post" "alice" Hne)).
Defined.

(** *** list.js over the earlier revision of the client *)

(** X17.  With the earlier revision of the client behind it, the
    [createUser] call of list.js, whose first argument is the name where the
    client expects its logger, throws before any request is made: the
    provisioning step resolves only when [getUser] succeeded, and can never
    create a forum user. *)
Theorem earlier_client_cannot_create_users js cfg env server req w :
  forum env = forum_over_http (DiscourseEarly.request_of js cfg) server ->
  (forall tr name username email password,
     forum env tr (CreateUser name username email password) = Rejected TypeError)
  /\ (forall user,
        fst (ensureUser js cfg env req w) = Resolved user ->
        exists r, forum env (trace w) (GetUser (authUser_handle req)) = Resolved r
                  /\ user = data r).
Proof.
  intros Hforum.
  assert (forall tr name username email password,
            forum env tr (CreateUser name username email password) = Rejected TypeError) as Hc.
  { intros. rewrite Hforum. reflexivity. }
  split; [exact Hc|].
  unfold ensureUser, getTopcoderUser. unfold_promises.
  destruct (forum env (trace w) (GetUser (authUser_handle req))) as [r|e|] eqn:Hu; simpl.
  - intros user H. injection H as <-. by exists r.
  - repeat branch; intros user H; try discriminate H;
      match goal with
      | Hr : forum _ _ (CreateUser _ _ _ _) = Resolved _ |- _ =>
          rewrite Hc in Hr; discriminate Hr
      end.
  - intros user H. discriminate H.
Qed.

Lemma earlier_client_cannot_create_users_witness :
  forum (with_forum silent_env
           (forum_over_http (DiscourseEarly.request_of sample_js sample_config)
              (fun _ _ => Reply 200 (JObj [("success", JBool true)]))))
    [] (CreateUser (JStr "Alice A") (JStr "alice") (JStr "alice@example.com") "secret")
  = Rejected TypeError.
Proof.
  refine (proj1 (earlier_client_cannot_create_users sample_js sample_config
           (with_forum silent_env
              (forum_over_http (DiscourseEarly.request_of sample_js sample_config)
                 (fun _ _ => Reply 200 (JObj [("success", JBool true)]))))
           (fun _ _ => Reply 200 (JObj [("success", JBool true)]))
           alice_request empty_world eq_refl) _ _ _ _ _).
Defined.

(** *** list.js over the later revision of the client *)

(** X18.  With the later revision of the client behind it, the four
    arguments of the [createUser] call of list.js land one parameter off:
    whenever a run creates a forum user, the request posted to [/users]
    carries the handle as [username], the configured placeholder password in
    the [email] field, the e-mail address of the profile in user field 1,
    and no password. *)
Theorem later_client_creates_user_shifted js cfg isDiscourseAdmin env req w :
  exists evs,
    trace (snd (handler js cfg env req w)) = trace w ++ evs
    /\ Forall (fun ev =>
         forall name handle email password,
           ev = discourse (CreateUser name handle email password) ->
           exists r,
             Discourse.request_of js cfg isDiscourseAdmin
               (CreateUser name handle email password) = Some r
             /\ method r = POST /\ url r = "/users"
             /\ get (body r) "name" = Some name
             /\ get (body r) "username" = Some handle
             /\ get (body r) "email" = Some (JStr (defaultDiscoursePw cfg))
             /\ get (body r) "password" = Some JUndefined
             /\ get (body r) "user_fields" = Some (JObj [("1", email)])) evs.
Proof.
  explore.
  repeat branch; flatten_trace;
    (eexists; split; [first [reflexivity | symmetry; apply app_nil_r]|]);
    repeat first
      [ apply Forall_nil_2
      | apply Forall_cons_2;
        [ intros ? ? ? ? Hev; first [discriminate Hev | injection Hev as <- <- <- <-];
          eexists; repeat split; reflexivity |] ].
Qed.

Lemma later_client_creates_user_shifted_witness :
  exists r,
    Discourse.request_of sample_js sample_config (fun _ => false)
      (CreateUser (JStr "Alice Doe") (JStr "alice") (JStr "alice@example.org") "placeholder")
    = Some r
    /\ get (body r) "email" = Some (JStr "placeholder")
    /\ get (body r) "user_fields" = Some (JObj [("1", JStr "alice@example.org")]).
Proof.
  destruct (later_client_creates_user_shifted sample_js sample_config (fun _ => false)
              scenario_A_env alice_request empty_world) as (evs & Htr & Hevs).
  change (trace empty_world ++ evs) with evs in Htr.
  rewrite <- Htr in Hevs.
  destruct (proj1 (Forall_forall _ _) Hevs
              (discourse (CreateUser (JStr "Alice Doe") (JStr "alice")
                            (JStr "alice@example.org") "placeholder")))
    with (name := JStr "Alice Doe") (handle := JStr "alice")
         (email := JStr "alice@example.org") (password := "placeholder")
    as (r & Hr & _ & _ & _ & _ & Hemail & _ & Hfields).
  - apply list_elem_of_In. vm_compute. repeat (first [left; reflexivity | right]).
  - reflexivity.
  - exists r. repeat split; assumption.
Defined.
